(** * vector.hh: the fixed-arity [pack] of [vector_t], embedded in Rocq

    The header declares [vector_t<T>::pack<Args...>], a wrapper around
    [std::array<T, Len>] with dot products, lengths and, for [float] and
    [Len == 3], the angle helpers of the game.  The repository holds two
    texts of the type: they agree on every member up to [length], the
    first one then has [normalize_angle], [normalize_length], [get_angle]
    and [clamp_angle], the second one [normalize] and [normalized].

    Objects live in a store indexed by locations, member functions are
    computations on that store, and [float] is IEEE 754 binary32 taken from
    the parameterised specification of the Standard Library. *)

From Stdlib Require Import ZArith Lia Bool SpecFloat.
From stdpp Require Import gmap list.

(** ** Scalars: the [detail::args_t] concept

    [T] is an integral or a floating-point type.  The members of [pack]
    that are generic in [T] use [T{}], [+=] and [*] only. *)

Class Scalar (T : Type) := {
  s_zero : T;
  s_add : T -> T -> T;
  s_mul : T -> T -> T
}.

(** *** [float]: binary32 *)

Module F32.

Definition prec : Z := 24.
Definition emax : Z := 128.

Definition float := spec_float.

(** The representations that are binary32 values. *)
Definition is_float (x : float) : Prop := valid_binary prec emax x = true.

(** A literal with an integer value, such as [360.F]. *)
Definition lit (n : Z) : float := binary_normalize prec emax n 0 false.

Definition add : float -> float -> float := SFadd prec emax.
Definition mul : float -> float -> float := SFmul prec emax.
Definition div : float -> float -> float := SFdiv prec emax.
Definition sqrt : float -> float := SFsqrt prec emax.
Definition opp : float -> float := SFopp.

(** [==], [!=], [<], [>] and [<=] of the language; every comparison with
    a NaN is false, except [!=]. *)
Definition eqb : float -> float -> bool := SFeqb.
Definition neb (x y : float) : bool := negb (SFeqb x y).
Definition ltb : float -> float -> bool := SFltb.
Definition gtb (x y : float) : bool := SFltb y x.
Definition leb : float -> float -> bool := SFleb.

Definition is_nan (x : float) : bool :=
  match x with S754_nan => true | _ => false end.

(** [std::isfinite] *)
Definition isfinite (x : float) : bool :=
  match x with
  | S754_zero _ | S754_finite _ _ _ => true
  | S754_infinity _ | S754_nan => false
  end.

(** The remainder of [X] by [Y] for the quotient rounded to nearest,
    ties to even; it lies between [-Y/2] and [Y/2]. *)
Definition rem_nearest_even (X Y : Z) : Z :=
  let q := (X / Y)%Z in
  let r := (X mod Y)%Z in
  match (2 * r ?= Y)%Z with
  | Lt => r
  | Gt => (r - Y)%Z
  | Eq => if Z.even q then r else (r - Y)%Z
  end.

(** [std::remainderf], the IEEE 754 remainder: [x - n * y] for [n] the
    integer nearest to [x / y].  The result is exact; a zero result has
    the sign of [x]. *)
Definition remainderf (x y : float) : float :=
  match x, y with
  | S754_nan, _ | _, S754_nan => S754_nan
  | S754_infinity _, _ => S754_nan
  | _, S754_zero _ => S754_nan
  | S754_zero _, _ => x
  | S754_finite _ _ _, S754_infinity _ => x
  | S754_finite sx mx ex, S754_finite _ my ey =>
      let e := Z.min ex ey in
      let X := Zpos (fst (shl_align mx ex e)) in
      let Y := Zpos (fst (shl_align my ey e)) in
      binary_normalize prec emax (cond_Zopp sx (rem_nearest_even X Y)) e sx
  end.

(** [std::clamp<float>( v, lo, hi )] *)
Definition clamp (v lo hi : float) : float :=
  if ltb v lo then lo else if ltb hi v then hi else v.

End F32.

(** *** [double]: binary64, for the one expression of [get_angle] that
    leaves [float] *)

Module F64.

Definition prec : Z := 53.
Definition emax : Z := 1024.

Definition mul : spec_float -> spec_float -> spec_float := SFmul prec emax.
Definition div : spec_float -> spec_float -> spec_float := SFdiv prec emax.

(** The conversion of a [float] to [double] keeps the value. *)
Definition of_float (x : F32.float) : spec_float :=
  match x with
  | S754_finite s m e => binary_round prec emax s m e
  | _ => x
  end.

(** The conversion of a [double] to [float] rounds to nearest even. *)
Definition to_float (x : spec_float) : F32.float :=
  match x with
  | S754_finite s m e => binary_round F32.prec F32.emax s m e
  | _ => x
  end.

(** [M_PI], the [double] nearest to pi: 0x400921FB54442D18. *)
Definition M_PI : spec_float := S754_finite false 7074237752028440 (-51).

End F64.

#[global] Instance float_Scalar : Scalar F32.float := {
  s_zero := S754_zero false;
  s_add := F32.add;
  s_mul := F32.mul
}.

(** *** [uint32_t]: arithmetic modulo 2^32 *)

Module U32.

Definition wrap (n : Z) : Z := (n mod 2 ^ 32)%Z.
Definition add (a b : Z) : Z := wrap (a + b).
Definition mul (a b : Z) : Z := wrap (a * b).

End U32.

Definition uint32_Scalar : Scalar Z := {|
  s_zero := 0%Z;
  s_add := U32.add;
  s_mul := U32.mul
|}.

(** ** The store and the computations on it *)

Definition loc := nat.

(** What ends a call without a result. *)
Inductive fault : Type :=
  | StaticAssert   (* a [static_assert] fails: the call is ill-formed *)
  | AssertFail     (* an [assert] fails: the program aborts *)
  | OutOfRange     (* [std::array::operator[]] outside [0, Len) *)
  | Dangling       (* the object is not in the store *)
  | IllFormed.     (* an assignment to a value that is not an lvalue: the
                      member cannot be instantiated *)

Inductive outcome (S A : Type) : Type :=
  | Returned (a : A) (s : S)
  | Failed (f : fault).

Arguments Returned {S A} a s.
Arguments Failed {S A} f.

Definition M (S A : Type) : Type := S -> outcome S A.

Definition ret {S A} (a : A) : M S A := fun s => Returned a s.

Definition bind {S A B} (m : M S A) (k : A -> M S B) : M S B :=
  fun s =>
    match m s with
    | Returned a s' => k a s'
    | Failed f => Failed f
    end.

Definition fail {S A} (f : fault) : M S A := fun _ => Failed f.

Notation "'let!' x ':=' m 'in' k" := (bind m (fun x => k))
  (at level 10, x name, m at level 100, k at level 200, only parsing).

Definition static_assert {S} (b : bool) : M S unit :=
  if b then ret tt else fail StaticAssert.

Definition assert {S} (b : bool) : M S unit :=
  if b then ret tt else fail AssertFail.

(** Modelled from the spec: [enums.hh] is not among the sources; the spec
    fixes index 0 = pitch, index 1 = yaw, index 2 = roll, as do the
    comments of the second text of the type. *)
Definition PITCH : nat := 0.
Definition YAW : nat := 1.
Definition ROLL : nat := 2.

(** ** [pack]: the members that both texts of the type share *)

Section pack.

Context {T : Type} {ST : Scalar T}.

(** [Len = sizeof...( Args )], a constant of the type. *)
Variable Len : nat.

(** [Arr = std::array<T, Len>]; the store maps an object to its
    [m_contents]. *)
Local Abbreviation Arr := (list T).
Local Abbreviation heap := (gmap loc (list T)).

Definition load (l : loc) : M heap Arr :=
  fun h =>
    match h !! l with
    | Some a => Returned a h
    | None => Failed Dangling
    end.

Definition store (l : loc) (a : Arr) : M heap unit :=
  fun h =>
    match h !! l with
    | Some _ => Returned tt (<[l := a]> h)
    | None => Failed Dangling
    end.

(** A new object, at a location the store does not use. *)
Definition alloc (a : Arr) : M heap loc :=
  fun h => let l := fresh (dom h) in Returned l (<[l := a]> h).

(** The end of the lifetime of a local object. *)
Definition free (l : loc) : M heap unit :=
  fun h => Returned tt (delete l h).

(** What an index expression denotes: the const [operator[]] returns a
    [T] by value; the other one returns a [T &] into the object. *)
Inductive place : Type :=
  | Ref (l : loc) (i : nat)
  | Temp (v : T).

Definition read (p : place) : M heap T :=
  match p with
  | Temp v => ret v
  | Ref l i =>
      let! a := load l in
      match a !! i with
      | Some x => ret x
      | None => fail OutOfRange
      end
  end.

(** An assignment through a reference reaches the object.  The value
    that the const [operator[]] returns is no lvalue, and [T] is an
    integral or floating-point type by [detail::args_t]: an assignment to
    it is ill-formed, and a member that has one cannot be instantiated. *)
Definition write (p : place) (v : T) : M heap unit :=
  match p with
  | Temp _ => fail IllFormed
  | Ref l i =>
      let! a := load l in
      if decide (i < length a) then store l (<[i := v]> a)
      else fail OutOfRange
  end.

(** [pack( )]: [m_contents = Arr{}], every component zero. *)
Definition pack_default : M heap loc := alloc (replicate Len s_zero).

(** [pack( args... )] *)
Definition pack_init (args : list T) : M heap loc :=
  let! _ := static_assert (length args =? Len) in
  alloc args.

Definition get_size (this : loc) : nat := Len.

(** [operator[]( i ) const -> T] *)
Definition index_const (this : loc) (i : nat) : M heap place :=
  let! a := load this in
  match a !! i with
  | Some x => ret (Temp x)
  | None => fail OutOfRange
  end.

(** [operator[]( i ) -> T &] *)
Definition index (this : loc) (i : nat) : M heap place :=
  let! a := load this in
  if decide (i < length a) then ret (Ref this i) else fail OutOfRange.

(** [at( i ) const] and [at( i )] *)
Definition at_const (this : loc) (i : nat) : M heap place :=
  let! _ := assert (i <? Len) in
  index_const this i.

Definition at_ (this : loc) (i : nat) : M heap place :=
  let! _ := assert (i <? Len) in
  index this i.

(** [get_contents( ) const -> const Arr]: the array, by value. *)
Definition get_contents (this : loc) : M heap Arr := load this.

(** [contents[ i ]] on the array itself. *)
Definition arr_index (contents : Arr) (i : nat) : M heap T :=
  match contents !! i with
  | Some x => ret x
  | None => fail OutOfRange
  end.

(** [auto _this = *this; return _this;] *)
Definition get_copy (this : loc) : M heap loc :=
  let! a := load this in
  alloc a.

(** [for( auto i = size_t{ 0 }; i < N; ++i ) body]: [n] rounds are left
    and the next one has index [i]. *)
Fixpoint for_loop (n i : nat) (body : nat -> T -> M heap T) (result : T)
  : M heap T :=
  match n with
  | O => ret result
  | S n' => let! result' := body i result in for_loop n' (S i) body result'
  end.

(** [get_dot<N>( ) const] *)
Definition get_dot (N : nat) (this : loc) : M heap T :=
  let! _ := static_assert (N <=? Len) in
  let! contents := get_contents this in
  for_loop N 0
    (fun i result =>
       let! x := arr_index contents i in
       let! y := arr_index contents i in
       ret (s_add result (s_mul x y)))
    s_zero.

(** [dot<N>( T arg ) const] *)
Definition dot_scalar (N : nat) (this : loc) (arg : T) : M heap T :=
  let! _ := static_assert (N <=? Len) in
  let! contents := get_contents this in
  for_loop N 0
    (fun i result =>
       let! x := arr_index contents i in
       ret (s_add result (s_mul x arg)))
    s_zero.

(** [dot<N>( const pack &arg ) const]: [arg] has the type of the
    receiver, so [arg.get_size( )] is [Len]; [arg_contents] is taken
    from the receiver. *)
Definition dot (N : nat) (this : loc) (arg : loc) : M heap T :=
  let! _ := static_assert (N <=? Len) in
  let! _ := assert (get_size arg <=? N) in
  let! arg_contents := get_contents this in
  let! contents := get_contents this in
  for_loop N 0
    (fun i result =>
       let! x := arr_index contents i in
       let! y := arr_index arg_contents i in
       ret (s_add result (s_mul x y)))
    s_zero.

(** The sum the loops compute, starting from [acc]: the products of the
    first [n] components of [a] and [b], added from the left. *)
Fixpoint sum_prod (n : nat) (a b : list T) (acc : T) : T :=
  match n, a, b with
  | S n', x :: a', y :: b' => sum_prod n' a' b' (s_add acc (s_mul x y))
  | _, _, _ => acc
  end.

End pack.

Arguments Ref {T} l i.
Arguments Temp {T} v.

(** ** The members for [T = float] *)

Section angles.

(** [Len] as above. *)
Variable Len : nat.

(** [atan2] of [<cmath>] on two [float]s; the library function is not
    part of the repository and stays a parameter. *)
Variable atan2f : F32.float -> F32.float -> F32.float.

Local Abbreviation heap := (gmap loc (list F32.float)).

(** Reading and assigning [operator[]( i )] of a non-const object. *)
Definition load_at (this : loc) (i : nat) : M heap F32.float :=
  let! p := index this i in
  read p.

Definition store_at (this : loc) (i : nat) (v : F32.float) : M heap unit :=
  let! p := index this i in
  write p v.

(** [get_length<N>( ) const]: [sqrt( get_dot<N>( ) )].  For a [float]
    argument the call selects the [float] overload that the headers of the
    source ([corecrt_math_defines.h] is MSVC's) declare at global scope,
    the correctly rounded binary32 square root. *)
Definition get_length (N : nat) (this : loc) : M heap F32.float :=
  let! d := get_dot Len N this in
  ret (F32.sqrt d).

(** [length<N>( T arg ) const] and [length<N>( const pack &arg ) const] *)
Definition length_scalar (N : nat) (this : loc) (arg : F32.float)
  : M heap F32.float :=
  let! d := dot_scalar Len N this arg in
  ret (F32.sqrt d).

Definition length_pack (N : nat) (this arg : loc) : M heap F32.float :=
  let! d := dot Len N this arg in
  ret (F32.sqrt d).

(** *** First text of the type *)

(** One line of [normalize_angle]:
    [operator[]( i ) = std::isfinite( operator[]( i ) )
       ? std::remainderf( operator[]( i ), 360.F ) : 0.F;] *)
Definition normalize_angle_at (this : loc) (i : nat) : M heap unit :=
  let! c := load_at this i in
  let! v :=
    if F32.isfinite c
    then let! x := load_at this i in ret (F32.remainderf x (F32.lit 360))
    else ret (F32.lit 0) in
  store_at this i v.

Definition normalize_angle (this : loc) : M heap unit :=
  let! _ := static_assert (Len =? 3) in
  let! _ := normalize_angle_at this PITCH in
  let! _ := normalize_angle_at this YAW in
  store_at this ROLL (F32.lit 0).

Definition normalized_angle (this : loc) : M heap loc :=
  let! _ := static_assert (Len =? 3) in
  let! copy := get_copy this in
  let! _ := normalize_angle copy in
  ret copy.

(** [operator[]( i ) /= length;] *)
Definition div_at (this : loc) (i : nat) (length : F32.float) : M heap unit :=
  let! x := load_at this i in
  store_at this i (F32.div x length).

Definition normalize_length (this : loc) : M heap unit :=
  let! _ := static_assert (Len =? 3) in
  let! length := get_length Len this in
  if F32.neb length (F32.lit 0) then
    let! _ := div_at this PITCH length in
    let! _ := div_at this YAW length in
    div_at this ROLL length
  else
    let! _ := store_at this YAW (F32.lit 0) in
    let! _ := store_at this PITCH (F32.lit 0) in
    store_at this ROLL (F32.lit 1).

Definition normalized_length (this : loc) : M heap loc :=
  let! _ := static_assert (Len =? 3) in
  let! copy := get_copy this in
  let! _ := normalize_length copy in
  ret copy.

(** [x * ( 180.F / M_PI )], computed in [double] and stored in a
    [float]. *)
Definition rad_to_deg (x : F32.float) : F32.float :=
  F64.to_float
    (F64.mul (F64.of_float x)
       (F64.div (F64.of_float (F32.lit 180)) F64.M_PI)).

Definition get_angle (this : loc) : M heap loc :=
  let! forward := get_copy this in
  let! angles := pack_default Len in
  let! fp := load_at forward PITCH in
  let! both_zero :=
    if F32.eqb fp (F32.lit 0)
    then let! fy := load_at forward YAW in ret (F32.eqb fy (F32.lit 0))
    else ret false in
  let! _ :=
    if both_zero : bool then
      let! r := load_at angles ROLL in
      let! _ := store_at angles PITCH
                  (if F32.gtb r (F32.lit 0)
                   then F32.opp (F32.lit 90) else F32.lit 90) in
      store_at angles YAW (F32.lit 0)
    else
      let! fr := load_at forward ROLL in
      let! len := get_length 2 forward in
      store_at angles PITCH (rad_to_deg (atan2f (F32.opp fr) len)) in
  let! _ := free forward in
  ret angles.

(** [operator[]( i ) = std::clamp<float>( operator[]( i ), lo, hi );] *)
Definition clamp_at (this : loc) (i : nat) (lo hi : F32.float) : M heap unit :=
  let! x := load_at this i in
  store_at this i (F32.clamp x lo hi).

Definition clamp_angle (this : loc) : M heap unit :=
  let! _ := static_assert (Len =? 3) in
  let! _ := clamp_at this PITCH (F32.opp (F32.lit 89)) (F32.lit 89) in
  let! _ := clamp_at this YAW (F32.opp (F32.lit 180)) (F32.lit 180) in
  store_at this ROLL (F32.lit 0).

(** *** Second text of the type *)

Definition normalize (this : loc) : M heap unit :=
  let! _ := static_assert (Len =? 3) in
  let! length := get_length Len this in
  if F32.neb length (F32.lit 0) then
    let! _ := div_at this 0 length in
    let! _ := div_at this 1 length in
    div_at this 2 length
  else
    let! _ := store_at this 1 (F32.lit 0) in
    let! _ := store_at this 0 (F32.lit 0) in
    store_at this 2 (F32.lit 1).

(** [copy[ i ] /= length;] and [copy[ i ] = v;] for [copy] a
    [const pack &]: the index expression is the const [operator[]], whose
    result is a [float] by value, and the assignment to it is ill-formed.
    The header compiles because a member of a class template is
    instantiated on use only. *)
Definition const_div_at (copy : loc) (i : nat) (length : F32.float)
  : M heap unit :=
  let! p := index_const copy i in
  let! x := read p in
  write p (F32.div x length).

Definition const_store_at (copy : loc) (i : nat) (v : F32.float)
  : M heap unit :=
  let! p := index_const copy i in
  write p v.

(** [copy] names the temporary that [get_copy( )] returns; [return copy]
    would construct the result from it.  Both branches assign through
    [copy], so no call of the member gets that far. *)
Definition normalized (this : loc) : M heap loc :=
  let! _ := static_assert (Len =? 3) in
  let! copy := get_copy this in
  let! length := get_length Len copy in
  let! _ :=
    if F32.neb length (F32.lit 0) then
      let! _ := const_div_at copy 0 length in
      let! _ := const_div_at copy 1 length in
      const_div_at copy 2 length
    else
      let! _ := const_store_at copy 1 (F32.lit 0) in
      let! _ := const_store_at copy 0 (F32.lit 0) in
      const_store_at copy 2 (F32.lit 1) in
  let! result := get_copy copy in
  let! _ := free copy in
  ret result.

End angles.

(** ** Values and stores that the statements below name *)

Section values.

Implicit Types (p y r : F32.float).

(** The length of (p, y, r) as [get_length( )] computes it: the squares
    are added from the left to [T{}]. *)
Definition length3 p y r : F32.float :=
  F32.sqrt
    (F32.add (F32.add (F32.add (S754_zero false) (F32.mul p p))
                (F32.mul y y)) (F32.mul r r)).

(** The length of the two-component prefix, [get_length<2>( )]. *)
Definition length2 p y : F32.float :=
  F32.sqrt (F32.add (F32.add (S754_zero false) (F32.mul p p)) (F32.mul y y)).

(** What both [normalize_length] and [normalize] leave in the object. *)
Definition unit3 p y r : list F32.float :=
  if F32.neb (length3 p y r) (F32.lit 0)
  then [ F32.div p (length3 p y r);
         F32.div y (length3 p y r);
         F32.div r (length3 p y r) ]
  else [ F32.lit 0; F32.lit 0; F32.lit 1 ].

(** What [get_angle] leaves in [angles]. *)
Definition angles_of (atan2f : F32.float -> F32.float -> F32.float) p y r
  : list F32.float :=
  if F32.eqb p (F32.lit 0) && F32.eqb y (F32.lit 0)
  then [ F32.lit 90; F32.lit 0; F32.lit 0 ]
  else [ rad_to_deg (atan2f (F32.opp r) (length2 p y));
         F32.lit 0; F32.lit 0 ].

End values.

(** The object at location 0 after a call, if the call returns. *)
Definition object_0 {A} (o : outcome (gmap loc (list F32.float)) A)
  : option (list F32.float) :=
  match o with
  | Returned _ h => h !! 0
  | Failed _ => None
  end.

(** The vectors (1, 2, 3) and (4, 5, 6) of [float]s, at locations 0 and 1. *)
Definition v123_456 : gmap loc (list F32.float) :=
  {[ 0 := [F32.lit 1; F32.lit 2; F32.lit 3];
     1 := [F32.lit 4; F32.lit 5; F32.lit 6] ]}.

(** The same two vectors of [uint32_t]s. *)
Definition u123_456 : gmap loc (list Z) :=
  {[ 0 := [1; 2; 3]%Z; 1 := [4; 5; 6]%Z ]}.

Section mutations.

Context {T : Type} {ST : Scalar T}.

Local Abbreviation heap := (gmap loc (list T)).

(** What a caller may do to a vector it holds: assignments
    [c[ i ] = v], in order. *)
Fixpoint mutate (c : loc) (ws : list (nat * T)) : M heap unit :=
  match ws with
  | [] => ret tt
  | (i, v) :: ws' =>
      let! p := index c i in
      let! _ := write p v in
      mutate c ws'
  end.

End mutations.

(** ** [initialize] and the sums of [uint32_t] products *)

Section initialize.

Context {T : Type} {ST : Scalar T}.
Variable Len : nat.

Local Abbreviation heap := (gmap loc (list T)).

(** [initialize( args... )]: [m_contents = Arr{ { args... } }]; the
    parameter pack has [Len] elements by its type. *)
Definition initialize (this : loc) (args : list T) : M heap unit :=
  let! _ := static_assert (length args =? Len) in
  store this args.

End initialize.

(** The sum of the products of the first [n] components, in Z. *)
Definition prefix_dot (n : nat) (a b : list Z) : Z :=
  foldr Z.add 0%Z (zip_with Z.mul (take n a) (take n b)).

(** A mantissa [m] at exponent [e] of magnitude at most 180, which is
    11796480 * 2^-16. *)
Definition at_most_180 (m : positive) (e : Z) : Prop :=
  (e <= -15 /\ 2 * Zpos m <= 11796480 * 2 ^ (-15 - e))%Z.

(** [x] is a NaN or has the sign bit [s]. *)
Definition sign_is (s : bool) (x : F32.float) : Prop :=
  match x with
  | S754_nan => True
  | S754_zero s' | S754_infinity s' | S754_finite s' _ _ => s' = s
  end.

(** The conversion from radians to degrees as the spec words it, written
    apart from the code: the product with 180 / pi, the [double]
    57.29577951308232 = 8063664102031864 * 2^-47, stored in a [float]. *)
Definition deg_per_rad : spec_float :=
  S754_finite false 8063664102031864 (-47).

Definition spec_degrees (x : F32.float) : F32.float :=
  F64.to_float (F64.mul (F64.of_float x) deg_per_rad).

(** The [float]s nearest to pi / 4 and pi / 2: 0x3F490FDB and
    0x3FC90FDB. *)
Definition float_pi_4 : F32.float := S754_finite false 13176795 (-24).
Definition float_pi_2 : F32.float := S754_finite false 13176795 (-23).


(** ** The arithmetic on concrete values *)

Example remainderf_examples :
  F32.remainderf (F32.lit 450) (F32.lit 360) = F32.lit 90
  /\ F32.remainderf (F32.lit (-450)) (F32.lit 360) = F32.lit (-90)
  /\ F32.remainderf (F32.lit 540) (F32.lit 360) = F32.lit (-180)
  /\ F32.remainderf (F32.lit 180) (F32.lit 360) = F32.lit 180
  /\ F32.remainderf (F32.lit 10) (F32.lit 360) = F32.lit 10
  /\ F32.remainderf (S754_zero true) (F32.lit 360) = S754_zero true
  /\ F32.remainderf (S754_infinity false) (F32.lit 360) = S754_nan.
Proof. repeat split; vm_compute; reflexivity. Qed.

Example length3_3_4_0 :
  length3 (F32.lit 3) (F32.lit 4) (F32.lit 0) = F32.lit 5
  /\ F32.div (F32.lit 3) (F32.lit 5) = F32.div (F32.lit 6) (F32.lit 10)
  /\ F32.div (F32.lit 4) (F32.lit 5) = F32.div (F32.lit 8) (F32.lit 10)
  /\ F32.div (F32.lit 6) (F32.lit 10) = S754_finite false 10066330 (-24).
Proof. repeat split; vm_compute; reflexivity. Qed.

(** ** Running the primitives on a store that holds the object *)

Section exec.

Context {T : Type} {ST : Scalar T}.

Local Abbreviation heap := (gmap loc (list T)).

Implicit Types (h : heap) (a b : list T) (l this : loc) (i n N : nat).

Lemma bind_Returned {A B} (m : M heap A) (k : A -> M heap B) h x h' :
  m h = Returned x h' -> bind m k h = k x h'.
Proof. unfold bind. intros ->. reflexivity. Qed.

Lemma bind_Failed {A B} (m : M heap A) (k : A -> M heap B) h f :
  m h = Failed f -> bind m k h = Failed f.
Proof. unfold bind. intros ->. reflexivity. Qed.

Lemma load_eq h l a : h !! l = Some a -> load l h = Returned a h.
Proof. unfold load. intros ->. reflexivity. Qed.

Lemma store_eq h l a a' :
  h !! l = Some a -> store l a' h = Returned tt (<[l := a']> h).
Proof. unfold store. intros ->. reflexivity. Qed.

Lemma index_eq h this a i :
  h !! this = Some a -> i < length a ->
  index this i h = Returned (Ref this i) h.
Proof.
  intros Hl Hi. unfold index.
  rewrite (bind_Returned _ _ _ _ _ (load_eq _ _ _ Hl)).
  rewrite decide_True by exact Hi. reflexivity.
Qed.

Lemma index_const_eq h this a i x :
  h !! this = Some a -> a !! i = Some x ->
  index_const this i h = Returned (Temp x) h.
Proof.
  intros Hl Hi. unfold index_const.
  rewrite (bind_Returned _ _ _ _ _ (load_eq _ _ _ Hl)).
  rewrite Hi. reflexivity.
Qed.

Lemma read_Ref_eq h l a i x :
  h !! l = Some a -> a !! i = Some x -> read (Ref l i) h = Returned x h.
Proof.
  intros Hl Hi. unfold read.
  rewrite (bind_Returned _ _ _ _ _ (load_eq _ _ _ Hl)).
  rewrite Hi. reflexivity.
Qed.

Lemma write_Ref_eq h l a i v :
  h !! l = Some a -> i < length a ->
  write (Ref l i) v h = Returned tt (<[l := <[i := v]> a]> h).
Proof.
  intros Hl Hi. unfold write.
  rewrite (bind_Returned _ _ _ _ _ (load_eq _ _ _ Hl)).
  rewrite decide_True by exact Hi. apply (store_eq _ _ a). exact Hl.
Qed.

(** An assignment to the value of the const [operator[]] is rejected. *)
Lemma write_Temp_eq h x v : write (Temp x) v h = Failed IllFormed.
Proof. reflexivity. Qed.

Lemma get_copy_eq h this a :
  h !! this = Some a ->
  get_copy this h = Returned (fresh (dom h)) (<[fresh (dom h) := a]> h).
Proof.
  intros Hl. unfold get_copy.
  rewrite (bind_Returned _ _ _ _ _ (load_eq _ _ _ Hl)). reflexivity.
Qed.

Lemma fresh_lookup h : h !! fresh (dom h) = None.
Proof. apply not_elem_of_dom. apply is_fresh. Qed.

Lemma fresh_ne h l a : h !! l = Some a -> fresh (dom h) <> l.
Proof. intros Hl E. rewrite <- E, fresh_lookup in Hl. discriminate. Qed.

(** The loops of [get_dot] and [dot] on arrays that are long enough. *)
Lemma for_loop_sum_prod a b n i acc h :
  i + n <= length a -> i + n <= length b ->
  for_loop n i
    (fun j result =>
       let! x := arr_index a j in
       let! y := arr_index b j in
       ret (s_add result (s_mul x y))) acc h
  = Returned (sum_prod n (drop i a) (drop i b) acc) h.
Proof.
  revert i acc. induction n as [|n IH]; intros i acc Ha Hb.
  - reflexivity.
  - destruct (lookup_lt_is_Some_2 a i) as [x Hx]; [lia|].
    destruct (lookup_lt_is_Some_2 b i) as [y Hy]; [lia|].
    rewrite (drop_S a x i Hx), (drop_S b y i Hy).
    cbn [for_loop sum_prod]. unfold bind at 1 2 3, arr_index.
    rewrite Hx, Hy. unfold ret at 1 2 3.
    apply IH; lia.
Qed.

Lemma for_loop_scalar a arg n i acc h :
  i + n <= length a ->
  for_loop n i
    (fun j result =>
       let! x := arr_index a j in
       ret (s_add result (s_mul x arg))) acc h
  = Returned (sum_prod n (drop i a) (replicate (length a - i) arg) acc) h.
Proof.
  revert i acc. induction n as [|n IH]; intros i acc Ha.
  - reflexivity.
  - destruct (lookup_lt_is_Some_2 a i) as [x Hx]; [lia|].
    rewrite (drop_S a x i Hx).
    replace (length a - i) with (S (length a - S i)) by lia.
    cbn [for_loop sum_prod replicate]. unfold bind at 1 2, arr_index.
    rewrite Hx. unfold ret at 1 2.
    apply IH; lia.
Qed.

Variable Len : nat.

Lemma get_dot_eq h this a N :
  h !! this = Some a -> N <= Len -> N <= length a ->
  get_dot Len N this h = Returned (sum_prod N a a s_zero) h.
Proof.
  intros Hl HN Ha. unfold get_dot, get_contents.
  replace (N <=? Len) with true by (symmetry; apply Nat.leb_le; exact HN).
  unfold static_assert. rewrite (bind_Returned _ _ h tt h) by reflexivity.
  rewrite (bind_Returned _ _ _ _ _ (load_eq _ _ _ Hl)).
  apply (for_loop_sum_prod a a N 0); simpl; exact Ha.
Qed.

End exec.

(** ** [dot<N>( const pack & )] *)

Section dot_facts.

Context {T : Type} {ST : Scalar T}.
Variable Len : nat.

Local Abbreviation heap := (gmap loc (list T)).

(** Every outcome of [dot<N>] on a receiver of [Len] components: it is
    ill-formed above [Len], it aborts below [Len], and at [Len] it
    returns the sum of the squares of the receiver. *)
Lemma dot_outcome (h : heap) (this arg : loc) (a : list T) (N : nat) :
  h !! this = Some a -> length a = Len ->
  dot Len N this arg h =
    if N <=? Len
    then if Len <=? N
         then Returned (sum_prod N a a s_zero) h
         else Failed AssertFail
    else Failed StaticAssert.
Proof.
  intros Hl Ha. unfold dot, get_size, get_contents.
  destruct (N <=? Len) eqn:HN; [|reflexivity].
  destruct (Len <=? N) eqn:HL; [|reflexivity].
  apply Nat.leb_le in HN.
  unfold static_assert, assert.
  rewrite (bind_Returned _ _ h tt h) by reflexivity.
  rewrite (bind_Returned _ _ h tt h) by reflexivity.
  rewrite (bind_Returned _ _ _ _ _ (load_eq _ _ _ Hl)).
  rewrite (bind_Returned _ _ _ _ _ (load_eq _ _ _ Hl)).
  apply (for_loop_sum_prod a a N 0); simpl; lia.
Qed.

(** The argument has no part in the result: [dot] is [get_dot]. *)
Lemma dot_is_get_dot (h : heap) (this arg : loc) (a : list T) :
  h !! this = Some a -> length a = Len ->
  dot Len Len this arg h = get_dot Len Len this h.
Proof.
  intros Hl Ha.
  rewrite (dot_outcome h this arg a Len Hl Ha).
  rewrite (get_dot_eq Len h this a Len Hl); [|lia|lia].
  rewrite Nat.leb_refl. reflexivity.
Qed.

End dot_facts.

(** C1, on the code: for the [float] vectors a = (1, 2, 3) and
    b = (4, 5, 6), [a.dot<3>( b )] returns 14, the sum of the squares of
    [a], where the sum over i of a[i] * b[i] is 32; the same holds for
    [uint32_t].  [arg_contents] is read from the receiver, so the
    components of the argument are never used. *)
Theorem dot_ignores_argument :
  dot 3 3 0 1 v123_456 = Returned (F32.lit 14) v123_456
  /\ sum_prod 3 [F32.lit 1; F32.lit 2; F32.lit 3]
       [F32.lit 4; F32.lit 5; F32.lit 6] s_zero = F32.lit 32
  /\ F32.lit 14 <> F32.lit 32
  /\ dot (ST := uint32_Scalar) 3 3 0 1 u123_456 = Returned 14%Z u123_456
  /\ sum_prod (ST := uint32_Scalar) 3 [1; 2; 3]%Z [4; 5; 6]%Z 0%Z = 32%Z.
Proof.
  repeat split; try (vm_compute; reflexivity).
  vm_compute. discriminate.
Qed.

(** C6, on the code: the assertion [arg.get_size( ) <= N] compares in the
    direction opposite to the precondition.  On every receiver of [Len]
    components and for every argument, [dot<N>] with [N < Len], a call
    the precondition allows, aborts on the assertion; the assertion
    passes when [N = Len] only. *)
Theorem dot_assert_fires_below_Len
    (T : Type) (ST : Scalar T) (Len N : nat)
    (h : gmap loc (list T)) (this arg : loc) (a : list T) :
  h !! this = Some a -> length a = Len -> N <= Len ->
  (N < Len -> dot Len N this arg h = Failed AssertFail)
  /\ (N = Len -> exists r, dot Len N this arg h = Returned r h).
Proof.
  intros Hl Ha HN.
  rewrite (dot_outcome Len h this arg a N Hl Ha).
  replace (N <=? Len) with true by (symmetry; apply Nat.leb_le; exact HN).
  split.
  - intros Hlt.
    replace (Len <=? N) with false by (symmetry; apply Nat.leb_gt; exact Hlt).
    reflexivity.
  - intros ->. rewrite Nat.leb_refl. eexists. reflexivity.
Qed.

Lemma dot_assert_fires_below_Len_witness :
  dot 3 2 0 1 v123_456 = Failed AssertFail.
Proof.
  apply (dot_assert_fires_below_Len F32.float float_Scalar 3 2 v123_456 0 1
           [F32.lit 1; F32.lit 2; F32.lit 3]).
  - vm_compute. reflexivity.
  - reflexivity.
  - lia.
  - lia.
Defined.

(** ** The angle helpers on a three-component [float] vector *)

(** One statement of a member function: [L] gives its outcome on a store
    that holds the object. *)
Ltac side :=
  first [ eassumption | apply lookup_insert_eq | reflexivity
        | simpl; unfold PITCH, YAW, ROLL; lia ].
Ltac step L := erewrite bind_Returned by (eapply L; side).
Ltac last_step L :=
  erewrite L by side;
  cbn [list_insert PITCH YAW ROLL]; rewrite ?insert_insert_eq; reflexivity.

Section angle_exec.

Local Abbreviation heap := (gmap loc (list F32.float)).

Implicit Types (h : heap) (a : list F32.float) (this : loc) (i : nat)
  (x v p y r : F32.float).

Lemma load_at_eq h this a i x :
  h !! this = Some a -> a !! i = Some x ->
  load_at this i h = Returned x h.
Proof.
  intros Hl Hi. unfold load_at.
  rewrite (bind_Returned _ _ _ _ _ (index_eq h this a i Hl
             (lookup_lt_Some _ _ _ Hi))).
  exact (read_Ref_eq h this a i x Hl Hi).
Qed.

Lemma store_at_eq h this a i v :
  h !! this = Some a -> i < length a ->
  store_at this i v h = Returned tt (<[this := <[i := v]> a]> h).
Proof.
  intros Hl Hi. unfold store_at.
  rewrite (bind_Returned _ _ _ _ _ (index_eq h this a i Hl Hi)).
  exact (write_Ref_eq h this a i v Hl Hi).
Qed.

Lemma normalize_angle_at_eq h this a i x :
  h !! this = Some a -> a !! i = Some x ->
  normalize_angle_at this i h =
    Returned tt
      (<[this := <[i := if F32.isfinite x
                        then F32.remainderf x (F32.lit 360)
                        else F32.lit 0]> a]> h).
Proof.
  intros Hl Hi. unfold normalize_angle_at.
  rewrite (bind_Returned _ _ _ _ _ (load_at_eq h this a i x Hl Hi)).
  assert (Hlt : i < length a) by exact (lookup_lt_Some _ _ _ Hi).
  destruct (F32.isfinite x).
  - rewrite (bind_Returned _ _ h (F32.remainderf x (F32.lit 360)) h).
    + exact (store_at_eq h this a i _ Hl Hlt).
    + rewrite (bind_Returned _ _ _ _ _ (load_at_eq h this a i x Hl Hi)).
      reflexivity.
  - rewrite (bind_Returned _ _ h (F32.lit 0) h) by reflexivity.
    exact (store_at_eq h this a i _ Hl Hlt).
Qed.

Lemma div_at_eq h this a i x len :
  h !! this = Some a -> a !! i = Some x ->
  div_at this i len h =
    Returned tt (<[this := <[i := F32.div x len]> a]> h).
Proof.
  intros Hl Hi. unfold div_at.
  rewrite (bind_Returned _ _ _ _ _ (load_at_eq h this a i x Hl Hi)).
  exact (store_at_eq h this a i _ Hl (lookup_lt_Some _ _ _ Hi)).
Qed.

Lemma clamp_at_eq h this a i x lo hi :
  h !! this = Some a -> a !! i = Some x ->
  clamp_at this i lo hi h =
    Returned tt (<[this := <[i := F32.clamp x lo hi]> a]> h).
Proof.
  intros Hl Hi. unfold clamp_at.
  rewrite (bind_Returned _ _ _ _ _ (load_at_eq h this a i x Hl Hi)).
  exact (store_at_eq h this a i _ Hl (lookup_lt_Some _ _ _ Hi)).
Qed.

Lemma static_assert_3 {A} (k : unit -> M heap A) h :
  bind (static_assert (3 =? 3)) k h = k tt h.
Proof. reflexivity. Qed.

(** [normalize_angle] *)
Lemma normalize_angle_eq h this p y r :
  h !! this = Some [p; y; r] ->
  normalize_angle 3 this h =
    Returned tt
      (<[this :=
           [ if F32.isfinite p then F32.remainderf p (F32.lit 360)
             else F32.lit 0;
             if F32.isfinite y then F32.remainderf y (F32.lit 360)
             else F32.lit 0;
             F32.lit 0 ]]> h).
Proof.
  intros Hl. unfold normalize_angle. rewrite static_assert_3.
  step normalize_angle_at_eq. step normalize_angle_at_eq.
  last_step store_at_eq.
Qed.

(** [clamp_angle] *)
Lemma clamp_angle_eq h this p y r :
  h !! this = Some [p; y; r] ->
  clamp_angle 3 this h =
    Returned tt
      (<[this :=
           [ F32.clamp p (F32.opp (F32.lit 89)) (F32.lit 89);
             F32.clamp y (F32.opp (F32.lit 180)) (F32.lit 180);
             F32.lit 0 ]]> h).
Proof.
  intros Hl. unfold clamp_angle. rewrite static_assert_3.
  step clamp_at_eq. step clamp_at_eq. last_step store_at_eq.
Qed.

Lemma get_length_3_eq h this p y r :
  h !! this = Some [p; y; r] ->
  get_length 3 3 this h = Returned (length3 p y r) h.
Proof.
  intros Hl. unfold get_length.
  rewrite (bind_Returned _ _ _ _ _
             (get_dot_eq 3 h this [p; y; r] 3 Hl (le_n 3) (le_n 3))).
  reflexivity.
Qed.

Lemma normalize_length_eq h this p y r :
  h !! this = Some [p; y; r] ->
  normalize_length 3 this h = Returned tt (<[this := unit3 p y r]> h).
Proof.
  intros Hl. unfold normalize_length, unit3. rewrite static_assert_3.
  step get_length_3_eq.
  destruct (F32.neb (length3 p y r) (F32.lit 0)).
  - step div_at_eq. step div_at_eq. last_step div_at_eq.
  - step store_at_eq. step store_at_eq. last_step store_at_eq.
Qed.

(** The second text spells the indices 0, 1, 2: [normalize] is
    [normalize_length]. *)
Lemma normalize_eq h this p y r :
  h !! this = Some [p; y; r] ->
  normalize 3 this h = Returned tt (<[this := unit3 p y r]> h).
Proof. exact (normalize_length_eq h this p y r). Qed.

End angle_exec.

(** ** [normalize_angle] *)

(** C7: on every three-component [float] vector, [normalize_angle]
    replaces pitch and yaw each by the round-to-nearest remainder of the
    division by 360 when the component is finite and by 0 when it is not,
    and sets roll to 0; (NaN, 10, 5) becomes (0, 10, 0). *)
Theorem normalize_angle_remainder :
  (forall (h : gmap loc (list F32.float)) (this : loc) (p y r : F32.float),
     h !! this = Some [p; y; r] ->
     normalize_angle 3 this h =
       Returned tt
         (<[this :=
              [ if F32.isfinite p then F32.remainderf p (F32.lit 360)
                else F32.lit 0;
                if F32.isfinite y then F32.remainderf y (F32.lit 360)
                else F32.lit 0;
                F32.lit 0 ]]> h))
  /\ normalize_angle 3 0 {[ 0 := [S754_nan; F32.lit 10; F32.lit 5] ]} =
       Returned tt {[ 0 := [F32.lit 0; F32.lit 10; F32.lit 0] ]}.
Proof.
  split.
  - exact normalize_angle_eq.
  - vm_compute. reflexivity.
Qed.

Lemma normalize_angle_remainder_witness :
  normalize_angle 3 0 {[ 0 := [F32.lit 450; F32.lit (-450); F32.lit 123] ]} =
    Returned tt {[ 0 := [F32.lit 90; F32.lit (-90); F32.lit 0] ]}.
Proof.
  rewrite (proj1 normalize_angle_remainder
             {[ 0 := [F32.lit 450; F32.lit (-450); F32.lit 123] ]} 0
             (F32.lit 450) (F32.lit (-450)) (F32.lit 123)).
  - vm_compute. reflexivity.
  - vm_compute. reflexivity.
Defined.

(** ** [clamp_angle] *)

Lemma SFcompare_antisym (x y : spec_float) :
  SFcompare y x = option_map CompOpp (SFcompare x y).
Proof.
  destruct x as [sx|sx| |sx mx ex], y as [sy|sy| |sy my ey];
    try (destruct sx); try (destruct sy); try reflexivity.
  - simpl. rewrite (Z.compare_antisym ex ey).
    destruct (ex ?= ey)%Z; simpl; try reflexivity.
    rewrite (Pos.compare_cont_antisym mx my Eq). reflexivity.
  - simpl. rewrite (Z.compare_antisym ex ey).
    destruct (ex ?= ey)%Z; simpl; try reflexivity.
    rewrite (Pos.compare_cont_antisym mx my Eq). reflexivity.
Qed.

(** When [v < lo] is false and [v] is not a NaN, [lo <= v]. *)
Lemma not_ltb_leb (v lo : F32.float) :
  F32.is_nan v = false -> F32.is_nan lo = false ->
  F32.ltb v lo = false -> F32.leb lo v = true.
Proof.
  unfold F32.ltb, F32.leb, SFltb, SFleb. intros Hv Hlo.
  rewrite (SFcompare_antisym v lo).
  destruct v, lo; try discriminate;
    destruct (SFcompare _ _) as [[| |]|] eqn:E;
    simpl; try reflexivity; try discriminate;
    repeat match goal with s : bool |- _ => destruct s end;
    simpl in E; discriminate.
Qed.

(** [std::clamp] returns a value between its bounds, unless [v] is a
    NaN, which it returns as it is. *)
Lemma clamp_range (v lo hi : F32.float) :
  F32.is_nan v = false -> F32.is_nan lo = false -> F32.is_nan hi = false ->
  F32.leb lo hi = true ->
  F32.leb lo (F32.clamp v lo hi) = true
  /\ F32.leb (F32.clamp v lo hi) hi = true.
Proof.
  intros Hv Hlo Hhi Hle. unfold F32.clamp.
  destruct (F32.ltb v lo) eqn:E1; [|destruct (F32.ltb hi v) eqn:E2].
  - split; [|exact Hle].
    apply not_ltb_leb; try assumption.
    unfold F32.ltb, SFltb.
    destruct lo; try discriminate; try reflexivity.
    + destruct s; reflexivity.
    + simpl. destruct s; rewrite Z.compare_refl, Pos.compare_cont_refl;
        reflexivity.
  - split; [exact Hle|].
    apply not_ltb_leb; try assumption.
    unfold F32.ltb, SFltb.
    destruct hi; try discriminate; try reflexivity.
    + destruct s; reflexivity.
    + simpl. destruct s; rewrite Z.compare_refl, Pos.compare_cont_refl;
        reflexivity.
  - split; apply not_ltb_leb; assumption.
Qed.

(** C9 as stated fails: it is not the case that [clamp_angle] brings
    pitch into [-89, 89] and yaw into [-180, 180] on every vector.  On
    (NaN, NaN, 7) pitch and yaw stay NaN. *)
Lemma clamp_angle_nan_counterexample :
  ~ (forall (h : gmap loc (list F32.float)) (this : loc) (p y r : F32.float),
       h !! this = Some [p; y; r] ->
       exists p' y' : F32.float,
         clamp_angle 3 this h
           = Returned tt (<[this := [p'; y'; F32.lit 0]]> h)
         /\ F32.leb (F32.lit (-89)) p' = true
         /\ F32.leb p' (F32.lit 89) = true
         /\ F32.leb (F32.lit (-180)) y' = true
         /\ F32.leb y' (F32.lit 180) = true).
Proof.
  intros H.
  destruct (H {[ 0 := [S754_nan; S754_nan; F32.lit 7] ]} 0
              S754_nan S754_nan (F32.lit 7))
    as (p' & y' & Hc & Hlo & _).
  - vm_compute. reflexivity.
  - assert (E : object_0
                  (clamp_angle 3 0 {[ 0 := [S754_nan; S754_nan; F32.lit 7] ]})
                = Some [S754_nan; S754_nan; F32.lit 0])
      by (vm_compute; reflexivity).
    rewrite Hc in E. cbn [object_0] in E.
    rewrite lookup_insert_eq in E.
    injection E as Ep _. rewrite Ep in Hlo. discriminate Hlo.
Qed.

(** C9, amended: on every three-component [float] vector, [clamp_angle]
    replaces pitch by [std::clamp] of it to [-89, 89] and yaw by
    [std::clamp] of it to [-180, 180], and sets roll to 0.  A pitch or
    yaw that is not a NaN ends in its interval; a NaN pitch or yaw stays
    a NaN.  (95, 200, 7) becomes (89, 180, 0) and (-95, -200, 7) becomes
    (-89, -180, 0). *)
Theorem clamp_angle_clamps :
  (forall (h : gmap loc (list F32.float)) (this : loc) (p y r : F32.float),
     h !! this = Some [p; y; r] ->
     exists p' y' : F32.float,
       clamp_angle 3 this h
         = Returned tt (<[this := [p'; y'; F32.lit 0]]> h)
       /\ p' = F32.clamp p (F32.opp (F32.lit 89)) (F32.lit 89)
       /\ y' = F32.clamp y (F32.opp (F32.lit 180)) (F32.lit 180)
       /\ (F32.is_nan p = false ->
           F32.leb (F32.lit (-89)) p' = true
           /\ F32.leb p' (F32.lit 89) = true)
       /\ (F32.is_nan y = false ->
           F32.leb (F32.lit (-180)) y' = true
           /\ F32.leb y' (F32.lit 180) = true)
       /\ (F32.is_nan p = true -> p' = S754_nan)
       /\ (F32.is_nan y = true -> y' = S754_nan))
  /\ clamp_angle 3 0 {[ 0 := [F32.lit 95; F32.lit 200; F32.lit 7] ]} =
       Returned tt {[ 0 := [F32.lit 89; F32.lit 180; F32.lit 0] ]}
  /\ clamp_angle 3 0 {[ 0 := [F32.lit (-95); F32.lit (-200); F32.lit 7] ]} =
       Returned tt {[ 0 := [F32.lit (-89); F32.lit (-180); F32.lit 0] ]}.
Proof.
  split; [|split; vm_compute; reflexivity].
  intros h this p y r Hl.
  exists (F32.clamp p (F32.opp (F32.lit 89)) (F32.lit 89)),
         (F32.clamp y (F32.opp (F32.lit 180)) (F32.lit 180)).
  split; [exact (clamp_angle_eq h this p y r Hl)|].
  split; [reflexivity|]. split; [reflexivity|].
  split; [|split; [|split]]; intros Hnan.
  - change (F32.lit (-89)) with (F32.opp (F32.lit 89)).
    apply clamp_range; try assumption; reflexivity.
  - change (F32.lit (-180)) with (F32.opp (F32.lit 180)).
    apply clamp_range; try assumption; reflexivity.
  - destruct p; try discriminate Hnan. reflexivity.
  - destruct y; try discriminate Hnan. reflexivity.
Qed.

Lemma clamp_angle_clamps_witness :
  exists p' y' : F32.float,
    clamp_angle 3 0 {[ 0 := [F32.lit 95; S754_nan; F32.lit 7] ]}
      = Returned tt
          (<[0 := [p'; y'; F32.lit 0]]>
             {[ 0 := [F32.lit 95; S754_nan; F32.lit 7] ]})
    /\ p' = F32.clamp (F32.lit 95) (F32.opp (F32.lit 89)) (F32.lit 89)
    /\ y' = F32.clamp S754_nan (F32.opp (F32.lit 180)) (F32.lit 180)
    /\ (F32.is_nan (F32.lit 95) = false ->
        F32.leb (F32.lit (-89)) p' = true /\ F32.leb p' (F32.lit 89) = true)
    /\ (F32.is_nan S754_nan = false ->
        F32.leb (F32.lit (-180)) y' = true
        /\ F32.leb y' (F32.lit 180) = true)
    /\ (F32.is_nan (F32.lit 95) = true -> p' = S754_nan)
    /\ (F32.is_nan S754_nan = true -> y' = S754_nan).
Proof.
  apply (proj1 clamp_angle_clamps
           {[ 0 := [F32.lit 95; S754_nan; F32.lit 7] ]} 0
           (F32.lit 95) S754_nan (F32.lit 7)).
  vm_compute. reflexivity.
Defined.

(** ** The members that return a [pack] *)

Section returned_packs.

Local Abbreviation heap := (gmap loc (list F32.float)).

Implicit Types (h : heap) (this : loc) (p y r : F32.float).

Lemma normalized_angle_eq h this p y r :
  h !! this = Some [p; y; r] ->
  normalized_angle 3 this h =
    Returned (fresh (dom h))
      (<[fresh (dom h) :=
           [ if F32.isfinite p then F32.remainderf p (F32.lit 360)
             else F32.lit 0;
             if F32.isfinite y then F32.remainderf y (F32.lit 360)
             else F32.lit 0;
             F32.lit 0 ]]> h).
Proof.
  intros Hl. unfold normalized_angle. rewrite static_assert_3.
  step @get_copy_eq. step normalize_angle_eq.
  rewrite insert_insert_eq. reflexivity.
Qed.

Lemma normalized_length_eq h this p y r :
  h !! this = Some [p; y; r] ->
  normalized_length 3 this h =
    Returned (fresh (dom h)) (<[fresh (dom h) := unit3 p y r]> h).
Proof.
  intros Hl. unfold normalized_length. rewrite static_assert_3.
  step @get_copy_eq. step normalize_length_eq.
  rewrite insert_insert_eq. reflexivity.
Qed.


(** A location that is fresh after an allocation was free before it. *)
Lemma fresh_insert_lookup h (l : loc) (a : list F32.float) :
  h !! fresh (dom (<[l := a]> h)) = None.
Proof.
  pose proof (fresh_lookup (<[l := a]> h)) as Hn.
  apply lookup_insert_None in Hn. exact (proj1 Hn).
Qed.

End returned_packs.

(** ** [get_angle] *)

Section get_angle_facts.

Variable atan2f : F32.float -> F32.float -> F32.float.

Local Abbreviation heap := (gmap loc (list F32.float)).

Implicit Types (h : heap) (this : loc) (p y r : F32.float).

Lemma get_length_2_eq h this p y r :
  h !! this = Some [p; y; r] ->
  get_length 3 2 this h = Returned (length2 p y) h.
Proof.
  intros Hl. unfold get_length.
  rewrite (bind_Returned _ _ _ _ _
             (get_dot_eq 3 h this [p; y; r] 2 Hl
                ltac:(lia) ltac:(simpl; lia))).
  reflexivity.
Qed.

Lemma get_angle_eq h this p y r :
  h !! this = Some [p; y; r] ->
  get_angle 3 atan2f this h =
    Returned (fresh (dom (<[fresh (dom h) := [p; y; r]]> h)))
      (<[fresh (dom (<[fresh (dom h) := [p; y; r]]> h)) := angles_of atan2f p y r]> h).
Proof.
  intros Hl. unfold get_angle.
  step @get_copy_eq.
  set (f := fresh (dom h)). set (h1 := <[f := [p; y; r]]> h).
  assert (H1 : h1 !! f = Some [p; y; r]) by apply lookup_insert_eq.
  rewrite (bind_Returned (pack_default 3) _ h1 (fresh (dom h1))
             (<[fresh (dom h1) := replicate 3 (S754_zero false)]> h1)
             eq_refl).
  set (g := fresh (dom h1)). cbn [replicate].
  set (h2 := <[g := _]> h1).
  assert (Hgf : g <> f) by exact (fresh_ne h1 f _ H1).
  assert (H2f : h2 !! f = Some [p; y; r]).
  { unfold h2. rewrite lookup_insert_ne by exact Hgf. exact H1. }
  assert (H2g : h2 !! g
                = Some [S754_zero false; S754_zero false; S754_zero false])
    by apply lookup_insert_eq.
  step load_at_eq.
  assert (Hend : forall A : list F32.float,
             bind (free f) (fun _ => ret g) (<[g := A]> h2)
             = Returned g (<[g := A]> h)).
  { intros A. rewrite (bind_Returned (free f) _ _ tt _ eq_refl).
    unfold ret, h2. rewrite insert_insert_eq. f_equal.
    rewrite delete_insert_ne by (apply not_eq_sym; exact Hgf).
    unfold h1. rewrite delete_insert_id by apply fresh_lookup.
    reflexivity. }
  unfold angles_of.
  destruct (F32.eqb p (F32.lit 0)) eqn:Ep;
    [rewrite (bind_Returned _ _ h2 (F32.eqb y (F32.lit 0)) h2)
       by (step load_at_eq; reflexivity);
     destruct (F32.eqb y (F32.lit 0)) eqn:Ey|];
    cbn [andb].
  - rewrite (bind_Returned _ _ h2 tt (<[g := [F32.lit 90; F32.lit 0; F32.lit 0]]> h2)).
    + apply Hend.
    + step load_at_eq.
      replace (F32.gtb (S754_zero false) (F32.lit 0)) with false
        by reflexivity.
      step store_at_eq. last_step store_at_eq.
  - rewrite (bind_Returned _ _ h2 tt
               (<[g := [rad_to_deg (atan2f (F32.opp r) (length2 p y));
                        F32.lit 0; F32.lit 0]]> h2)).
    + apply Hend.
    + step load_at_eq. step get_length_2_eq. last_step store_at_eq.
  - rewrite (bind_Returned _ _ h2 false h2) by reflexivity.
    rewrite (bind_Returned _ _ h2 tt
               (<[g := [rad_to_deg (atan2f (F32.opp r) (length2 p y));
                        F32.lit 0; F32.lit 0]]> h2)).
    + apply Hend.
    + step load_at_eq. step get_length_2_eq. last_step store_at_eq.
Qed.

End get_angle_facts.

(** The code's conversion is the one of the spec. *)
Lemma rad_to_deg_spec (x : F32.float) : rad_to_deg x = spec_degrees x.
Proof.
  unfold rad_to_deg, spec_degrees.
  replace (F64.div (F64.of_float (F32.lit 180)) F64.M_PI) with deg_per_rad
    by (vm_compute; reflexivity).
  reflexivity.
Qed.

(** C3: on every three-component [float] vector, [get_angle] returns a
    new vector and leaves the store as it was apart from it.  When
    components 0 and 1 both compare equal to zero the new vector has
    pitch 90 and yaw 0; otherwise its pitch is [atan2] of the negated
    component 2 and the length of the two-component prefix, converted
    from radians to degrees, and its yaw is the 0 of its construction.
    The conversion takes pi / 2 to 90, -pi / 4 to -45 and 0 to 0; on
    (3, 4, 5), where the prefix has length 5 and [atan2( -5, 5 )] is
    -pi / 4, the pitch is -45; on (0, -0, 5) it is 90. *)
Theorem get_angle_pitch_only :
  (forall (atan2f : F32.float -> F32.float -> F32.float)
          (h : gmap loc (list F32.float)) (this : loc) (p y r : F32.float),
     h !! this = Some [p; y; r] ->
     exists angles : loc,
       h !! angles = None
       /\ get_angle 3 atan2f this h =
            Returned angles
              (<[angles :=
                   if F32.eqb p (F32.lit 0) && F32.eqb y (F32.lit 0)
                   then [ F32.lit 90; F32.lit 0; F32.lit 0 ]
                   else [ spec_degrees (atan2f (F32.opp r) (length2 p y));
                          F32.lit 0; F32.lit 0 ]]> h))
  /\ spec_degrees float_pi_2 = F32.lit 90
  /\ spec_degrees (F32.opp float_pi_4) = F32.lit (-45)
  /\ spec_degrees (F32.lit 0) = F32.lit 0
  /\ length2 (F32.lit 3) (F32.lit 4) = F32.lit 5
  /\ (forall atan2f : F32.float -> F32.float -> F32.float,
        atan2f (F32.lit (-5)) (F32.lit 5) = F32.opp float_pi_4 ->
        exists (angles : loc) (h' : gmap loc (list F32.float)),
          get_angle 3 atan2f 0
            {[ 0 := [F32.lit 3; F32.lit 4; F32.lit 5] ]}
            = Returned angles h'
          /\ h' !! angles = Some [F32.lit (-45); F32.lit 0; F32.lit 0]
          /\ h' !! 0 = Some [F32.lit 3; F32.lit 4; F32.lit 5])
  /\ (forall atan2f : F32.float -> F32.float -> F32.float,
        exists (angles : loc) (h' : gmap loc (list F32.float)),
          get_angle 3 atan2f 0
            {[ 0 := [F32.lit 0; S754_zero true; F32.lit 5] ]}
            = Returned angles h'
          /\ h' !! angles = Some [F32.lit 90; F32.lit 0; F32.lit 0]
          /\ h' !! 0 = Some [F32.lit 0; S754_zero true; F32.lit 5]).
Proof.
  split; [|split; [|split; [|split; [|split; [|split]]]]].
  2-5: vm_compute; reflexivity.
  3: { intros atan2f. eexists. eexists. split.
       - apply (get_angle_eq atan2f _ 0 (F32.lit 0) (S754_zero true)
                  (F32.lit 5)).
         vm_compute. reflexivity.
       - split.
         + apply lookup_insert_eq.
         + vm_compute. reflexivity. }
  - intros atan2f h this p y r Hl. eexists. split.
    + apply fresh_insert_lookup.
    + rewrite (get_angle_eq atan2f h this p y r Hl). unfold angles_of.
      rewrite rad_to_deg_spec. reflexivity.
  - intros atan2f Hpi.
    eexists. eexists. split.
    + apply (get_angle_eq atan2f _ 0 (F32.lit 3) (F32.lit 4) (F32.lit 5)).
      vm_compute. reflexivity.
    + assert (Ha : angles_of atan2f (F32.lit 3) (F32.lit 4) (F32.lit 5)
                   = [F32.lit (-45); F32.lit 0; F32.lit 0]).
      { unfold angles_of.
        change (F32.eqb (F32.lit 3) (F32.lit 0)) with false. cbn [andb].
        change (F32.opp (F32.lit 5)) with (F32.lit (-5)).
        replace (length2 (F32.lit 3) (F32.lit 4)) with (F32.lit 5)
          by (vm_compute; reflexivity).
        rewrite Hpi. vm_compute. reflexivity. }
      rewrite Ha. split.
      * apply lookup_insert_eq.
      * vm_compute. reflexivity.
Qed.

Lemma get_angle_pitch_only_witness :
  exists angles : loc,
    ({[ 0 := [F32.lit 3; F32.lit 4; F32.lit 5] ]}
       : gmap loc (list F32.float)) !! angles = None
    /\ get_angle 3 (fun _ _ => F32.opp float_pi_4) 0
         {[ 0 := [F32.lit 3; F32.lit 4; F32.lit 5] ]} =
       Returned angles
         (<[angles :=
              if F32.eqb (F32.lit 3) (F32.lit 0)
                 && F32.eqb (F32.lit 4) (F32.lit 0)
              then [ F32.lit 90; F32.lit 0; F32.lit 0 ]
              else [ spec_degrees
                       ((fun _ _ => F32.opp float_pi_4) (F32.opp (F32.lit 5))
                          (length2 (F32.lit 3) (F32.lit 4)));
                     F32.lit 0; F32.lit 0 ]]>
            {[ 0 := [F32.lit 3; F32.lit 4; F32.lit 5] ]}).
Proof.
  apply (proj1 get_angle_pitch_only (fun _ _ => F32.opp float_pi_4)
           {[ 0 := [F32.lit 3; F32.lit 4; F32.lit 5] ]} 0
           (F32.lit 3) (F32.lit 4) (F32.lit 5)).
  vm_compute. reflexivity.
Defined.

(** ** [normalize_length] and [normalized_length] *)

(** C2 as stated fails: it is not the case that [normalize_length]
    leaves roll untouched on every vector of nonzero length.  On
    (0, 0, 2) the length is 2 and roll becomes 1. *)
Lemma normalize_length_roll_counterexample :
  ~ (forall (h : gmap loc (list F32.float)) (this : loc) (p y r : F32.float),
       h !! this = Some [p; y; r] ->
       F32.neb (length3 p y r) (F32.lit 0) = true ->
       normalize_length 3 this h =
         Returned tt
           (<[this := [ F32.div p (length3 p y r);
                        F32.div y (length3 p y r);
                        r ]]> h)).
Proof.
  intros H.
  specialize (H {[ 0 := [F32.lit 0; F32.lit 0; F32.lit 2] ]} 0
                (F32.lit 0) (F32.lit 0) (F32.lit 2)).
  apply (f_equal object_0) in H.
  - vm_compute in H. discriminate H.
  - vm_compute. reflexivity.
  - vm_compute. reflexivity.
Qed.

(** C2, amended: on every three-component [float] vector,
    [normalize_length] divides pitch, yaw and roll by the length when the
    length differs from 0, and sets (0, 0, 1) when it is 0;
    [normalized_length] on (3, 4, 0) returns a new vector with pitch
    0.6F, yaw 0.8F and roll 0, the receiver staying (3, 4, 0). *)
Theorem normalize_length_divides_all :
  (forall (h : gmap loc (list F32.float)) (this : loc) (p y r : F32.float),
     h !! this = Some [p; y; r] ->
     normalize_length 3 this h =
       Returned tt
         (<[this :=
              if F32.neb (length3 p y r) (F32.lit 0)
              then [ F32.div p (length3 p y r);
                     F32.div y (length3 p y r);
                     F32.div r (length3 p y r) ]
              else [ F32.lit 0; F32.lit 0; F32.lit 1 ]]> h))
  /\ exists (copy : loc) (h' : gmap loc (list F32.float)),
       normalized_length 3 0 {[ 0 := [F32.lit 3; F32.lit 4; F32.lit 0] ]}
         = Returned copy h'
       /\ h' !! copy = Some [ F32.div (F32.lit 6) (F32.lit 10);
                              F32.div (F32.lit 8) (F32.lit 10);
                              F32.lit 0 ]
       /\ h' !! 0 = Some [F32.lit 3; F32.lit 4; F32.lit 0].
Proof.
  split.
  - exact normalize_length_eq.
  - eexists. eexists. split; [vm_compute; reflexivity|].
    split; vm_compute; reflexivity.
Qed.

Lemma normalize_length_divides_all_witness :
  normalize_length 3 0 {[ 0 := [F32.lit 0; F32.lit 0; F32.lit 2] ]} =
    Returned tt {[ 0 := [F32.lit 0; F32.lit 0; F32.lit 1] ]}.
Proof.
  rewrite (proj1 normalize_length_divides_all
             {[ 0 := [F32.lit 0; F32.lit 0; F32.lit 2] ]} 0
             (F32.lit 0) (F32.lit 0) (F32.lit 2)).
  - vm_compute. reflexivity.
  - vm_compute. reflexivity.
Defined.

(** ** [normalize] and [normalized] of the second text *)

(** C4, on the code: [normalize] turns (3, 4, 0) into (0.6F, 0.8F, 0) in
    place, and the zero vector into (0, 0, 1), as does [normalized_length]
    of the first text on a copy.  [normalized] returns no vector for
    either receiver: its assignments go through the const [operator[]] of
    a [const pack &] and are rejected, where the claim has the normalized
    copy. *)
Theorem normalized_is_rejected :
  object_0 (normalize 3 0 {[ 0 := [F32.lit 3; F32.lit 4; F32.lit 0] ]})
    = Some [ F32.div (F32.lit 6) (F32.lit 10);
             F32.div (F32.lit 8) (F32.lit 10); F32.lit 0 ]
  /\ object_0 (normalize 3 0 {[ 0 := [F32.lit 0; F32.lit 0; F32.lit 0] ]})
    = Some [ F32.lit 0; F32.lit 0; F32.lit 1 ]
  /\ (exists (copy : loc) (h' : gmap loc (list F32.float)),
        normalized_length 3 0 {[ 0 := [F32.lit 3; F32.lit 4; F32.lit 0] ]}
          = Returned copy h'
        /\ h' !! copy = Some [ F32.div (F32.lit 6) (F32.lit 10);
                               F32.div (F32.lit 8) (F32.lit 10);
                               F32.lit 0 ])
  /\ normalized 3 0 {[ 0 := [F32.lit 3; F32.lit 4; F32.lit 0] ]}
     = Failed IllFormed
  /\ normalized 3 0 {[ 0 := [F32.lit 0; F32.lit 0; F32.lit 0] ]}
     = Failed IllFormed.
Proof.
  split; [vm_compute; reflexivity|].
  split; [vm_compute; reflexivity|].
  split.
  - eexists. eexists. split; vm_compute; reflexivity.
  - split; vm_compute; reflexivity.
Qed.









(** ** [std::remainderf] by 360 is exact and idempotent *)

Section remainder_exact.
Local Open Scope Z_scope.

Lemma digits2_pos_bounds (m : positive) :
2 ^ (Zpos (digits2_pos m) - 1) <= Zpos m < 2 ^ Zpos (digits2_pos m).
Proof.
induction m as [m IH|m IH|]; cbn [digits2_pos].
- rewrite Pos2Z.inj_succ.
  replace (Z.succ (Zpos (digits2_pos m)) - 1) with (Z.succ (Zpos (digits2_pos m) - 1)) by lia.
  rewrite !Z.pow_succ_r by lia. lia.
- rewrite Pos2Z.inj_succ.
  replace (Z.succ (Zpos (digits2_pos m)) - 1) with (Z.succ (Zpos (digits2_pos m) - 1)) by lia.
  rewrite !Z.pow_succ_r by lia. lia.
- simpl. lia.
Qed.

Lemma digits2_pos_le (m : positive) (d : Z) :
Zpos m < 2 ^ d -> Zpos (digits2_pos m) <= d.
Proof.
intros H. destruct (digits2_pos_bounds m) as [Hlo _].
destruct (Z_le_gt_dec (Zpos (digits2_pos m)) d) as [|Hgt]; [assumption|].
exfalso.
assert (0 <= d \/ d < 0) as [Hd|Hd] by lia.
- assert (2 ^ d <= 2 ^ (Zpos (digits2_pos m) - 1)) by (apply Z.pow_le_mono_r; lia).
  lia.
- rewrite Z.pow_neg_r in H by lia. lia.
Qed.

Lemma iter_xO_value (m d : positive) :
Zpos (Pos.iter xO m d) = Zpos m * 2 ^ Zpos d.
Proof.
induction d as [|d IH] using Pos.peano_ind.
- simpl. lia.
- rewrite Pos.iter_succ, Pos2Z.inj_xO, IH, Pos2Z.inj_succ, Z.pow_succ_r by lia.
  lia.
Qed.

Lemma iter_xO_digits (m d : positive) :
Zpos (digits2_pos (Pos.iter xO m d)) = Zpos (digits2_pos m) + Zpos d.
Proof.
induction d as [|d IH] using Pos.peano_ind.
- simpl. lia.
- rewrite Pos.iter_succ. cbn [digits2_pos].
  rewrite Pos2Z.inj_succ, IH. lia.
Qed.

Lemma shl_align_value (m : positive) (ex e : Z) :
e <= ex -> Zpos (fst (shl_align m ex e)) = Zpos m * 2 ^ (ex - e).
Proof.
intros H. unfold shl_align.
destruct (e - ex) as [|k|k] eqn:E; try lia.
- replace (ex - e) with 0 by lia. simpl. lia.
- cbn [fst]. rewrite iter_xO_value. f_equal. f_equal. lia.
Qed.

(** Rounding returns a canonical mantissa as it is. *)
Lemma binary_round_aux_canonical (s : bool) (m : positive) (e : Z) :
canonical_mantissa F32.prec F32.emax m e = true ->
e <= F32.emax - F32.prec ->
binary_round_aux F32.prec F32.emax s (Zpos m) e loc_Exact = S754_finite s m e.
Proof.
unfold canonical_mantissa. intros Hc He. apply Z.eqb_eq in Hc.
unfold binary_round_aux, shr_fexp. cbn [Zdigits2 shr_record_of_loc].
rewrite Hc, Z.sub_diag. cbn [shr shr_m loc_of_shr_record round_nearest_even].
cbn [Zdigits2 shr_record_of_loc].
rewrite Hc, Z.sub_diag. cbn [shr shr_m].
replace (e <=? F32.emax - F32.prec) with true by (symmetry; apply Z.leb_le; exact He).
reflexivity.
Qed.

(** A mantissa of at most 24 digits is aligned and not rounded. *)
Lemma binary_round_exact (s : bool) (m : positive) (e : Z) :
Zpos (digits2_pos m) <= 24 -> -149 <= e -> e <= 104 ->
exists m' e',
  binary_round F32.prec F32.emax s m e = S754_finite s m' e'
  /\ canonical_mantissa F32.prec F32.emax m' e' = true
  /\ e' <= e
  /\ Zpos m' = Zpos m * 2 ^ (e - e').
Proof.
intros Hd Hlo Hhi. unfold binary_round.
set (e' := fexp F32.prec F32.emax (Zpos (digits2_pos m) + e)).
assert (He' : e' = Z.max (Zpos (digits2_pos m) + e - 24) (-149)) by reflexivity.
assert (Hle : e' <= e) by lia.
unfold shl_align.
destruct (e' - e) as [|k|k] eqn:E; try lia.
- assert (e' = e) by lia. subst e'.
  exists m, e. rewrite binary_round_aux_canonical.
  + repeat split; try lia.
    * unfold canonical_mantissa. apply Z.eqb_eq. assumption.
    * rewrite Z.sub_diag. simpl. lia.
  + unfold canonical_mantissa. apply Z.eqb_eq. assumption.
  + unfold F32.emax, F32.prec. lia.
- assert (Hc : canonical_mantissa F32.prec F32.emax (Pos.iter xO m k) e' = true).
  { unfold canonical_mantissa. apply Z.eqb_eq.
    rewrite iter_xO_digits. unfold fexp, emin, F32.prec, F32.emax. lia. }
  exists (Pos.iter xO m k), e'. rewrite binary_round_aux_canonical.
  + repeat split; try lia; try assumption.
    rewrite iter_xO_value. f_equal. f_equal. lia.
  + exact Hc.
  + unfold F32.emax, F32.prec. lia.
Qed.

Lemma binary_round_canonical (s : bool) (m : positive) (e : Z) :
canonical_mantissa F32.prec F32.emax m e = true ->
e <= F32.emax - F32.prec ->
binary_round F32.prec F32.emax s m e = S754_finite s m e.
Proof.
intros Hc He. unfold binary_round.
pose proof Hc as Hc'. unfold canonical_mantissa in Hc'. apply Z.eqb_eq in Hc'.
rewrite Hc'. unfold shl_align. rewrite Z.sub_diag.
apply binary_round_aux_canonical; assumption.
Qed.

Lemma rem_nearest_even_bounds (X Y : Z) :
0 <= X -> 0 < Y ->
2 * Z.abs (F32.rem_nearest_even X Y) <= Y
/\ Z.abs (F32.rem_nearest_even X Y) <= X.
Proof.
intros HX HY. unfold F32.rem_nearest_even. cbv zeta.
pose proof (Z.mod_pos_bound X Y HY) as Hr.
pose proof (Z.mod_le X Y HX HY) as Hle.
destruct (2 * (X mod Y) ?= Y) eqn:E.
- apply Z.compare_eq in E. destruct (Z.even (X / Y)); lia.
- change (2 * (X mod Y) < Y) in E. lia.
- change (2 * (X mod Y) > Y) in E. lia.
Qed.

Lemma rem_nearest_even_small (X Y : Z) :
0 <= X -> 2 * X <= Y -> 0 < Y -> F32.rem_nearest_even X Y = X.
Proof.
intros HX H2 HY. unfold F32.rem_nearest_even. cbv zeta.
rewrite (Z.div_small X Y), (Z.mod_small X Y) by lia.
destruct (2 * X ?= Y) eqn:E.
- reflexivity.
- reflexivity.
- change (2 * X > Y) in E. lia.
Qed.

Lemma is_float_finite (s : bool) (m : positive) (e : Z) :
F32.is_float (S754_finite s m e) ->
Zpos (digits2_pos m) <= 24 /\ -149 <= e <= 104.
Proof.
unfold F32.is_float, valid_binary, bounded, canonical_mantissa.
intros H. apply andb_prop in H. destruct H as [Hc Hb].
apply Z.eqb_eq in Hc. apply Z.leb_le in Hb.
unfold fexp, emin, F32.prec, F32.emax in *. lia.
Qed.

Lemma remainderf_360_finite (sx : bool) (mx : positive) (ex : Z) :
F32.is_float (S754_finite sx mx ex) ->
F32.remainderf (S754_finite sx mx ex) (F32.lit 360) = S754_zero sx
\/ exists s' m' e',
     F32.remainderf (S754_finite sx mx ex) (F32.lit 360) = S754_finite s' m' e'
     /\ canonical_mantissa F32.prec F32.emax m' e' = true
     /\ e' <= -15
     /\ 2 * Zpos m' <= 11796480 * 2 ^ (-15 - e').
Proof.
intros Hv. apply is_float_finite in Hv. destruct Hv as [Hd [Hlo Hhi]].
change (F32.lit 360) with (S754_finite false 11796480 (-15)).
unfold F32.remainderf.
set (e := Z.min ex (-15)).
assert (HeX : e <= ex) by lia. assert (HeY : e <= -15) by lia.
rewrite (shl_align_value mx ex e HeX), (shl_align_value 11796480 (-15) e HeY).
set (X := Zpos mx * 2 ^ (ex - e)). set (Y := 11796480 * 2 ^ (-15 - e)).
assert (HX : 0 <= X) by (unfold X; apply Z.mul_nonneg_nonneg; [lia|apply Z.pow_nonneg; lia]).
assert (HY : 0 < Y) by (unfold Y; apply Z.mul_pos_pos; [lia|apply Z.pow_pos_nonneg; lia]).
destruct (rem_nearest_even_bounds X Y HX HY) as [HR2 HRX].
set (R := F32.rem_nearest_even X Y) in *.
assert (Hsmall : Z.abs R < 2 ^ 24).
{ destruct (Z_le_gt_dec ex (-15)) as [Hc|Hc].
  - assert (e = ex) by lia.
    assert (X = Zpos mx) by (unfold X; replace (ex - e) with 0 by lia; simpl; lia).
    destruct (digits2_pos_bounds mx) as [_ Hm].
    assert (2 ^ Zpos (digits2_pos mx) <= 2 ^ 24) by (apply Z.pow_le_mono_r; lia).
    lia.
  - assert (e = -15) by lia.
    assert (Y = 11796480) by (unfold Y; replace (-15 - e) with 0 by lia; reflexivity).
    lia. }
assert (Hgen : forall s (m1 : positive), Zpos m1 = Z.abs R ->
          exists s' m' e',
            binary_round F32.prec F32.emax s m1 e = S754_finite s' m' e'
            /\ canonical_mantissa F32.prec F32.emax m' e' = true
            /\ e' <= -15
            /\ 2 * Zpos m' <= 11796480 * 2 ^ (-15 - e')).
{ intros s m1 Hm1.
  destruct (binary_round_exact s m1 e) as (m' & e' & Hr & Hc & Hle & Hval).
  - apply digits2_pos_le. lia.
  - lia.
  - lia.
  - exists s, m', e'. repeat split; try assumption; try lia.
    rewrite Hval.
    replace (-15 - e') with ((-15 - e) + (e - e')) by lia.
    rewrite Z.pow_add_r by lia. fold Y.
    assert (0 < 2 ^ (e - e')) by (apply Z.pow_pos_nonneg; lia).
    nia. }
destruct R as [|m1|m1] eqn:ER; destruct sx; cbn [cond_Zopp Z.opp binary_normalize].
- left; reflexivity.
- left; reflexivity.
- right. apply Hgen. reflexivity.
- right. apply Hgen. reflexivity.
- right. apply Hgen. reflexivity.
- right. apply Hgen. reflexivity.
Qed.

Lemma remainderf_360_fixed (s : bool) (m : positive) (e : Z) :
canonical_mantissa F32.prec F32.emax m e = true ->
e <= -15 ->
2 * Zpos m <= 11796480 * 2 ^ (-15 - e) ->
F32.remainderf (S754_finite s m e) (F32.lit 360) = S754_finite s m e.
Proof.
intros Hc He H2.
change (F32.lit 360) with (S754_finite false 11796480 (-15)).
unfold F32.remainderf.
replace (Z.min e (-15)) with e by lia.
rewrite (shl_align_value m e e (Z.le_refl e)), (shl_align_value 11796480 (-15) e He).
rewrite Z.sub_diag, Z.pow_0_r, Z.mul_1_r.
rewrite rem_nearest_even_small.
- destruct s; cbn [cond_Zopp Z.opp binary_normalize];
    apply binary_round_canonical; try assumption;
    unfold F32.emax, F32.prec; lia.
- lia.
- exact H2.
- apply Z.mul_pos_pos; [lia|apply Z.pow_pos_nonneg; lia].
Qed.

(** The value one line of [normalize_angle] assigns is a fixed point of
  that line. *)
Lemma remainderf_360_idem (x : F32.float) :
F32.is_float x ->
let x' := if F32.isfinite x then F32.remainderf x (F32.lit 360) else F32.lit 0 in
(if F32.isfinite x' then F32.remainderf x' (F32.lit 360) else F32.lit 0) = x'.
Proof.
intros Hv. destruct x as [s|s| |s m e]; cbn [F32.isfinite]; try reflexivity.
destruct (remainderf_360_finite s m e Hv) as [Hz|(s' & m' & e' & Hr & Hc & He & H2)].
- rewrite Hz. reflexivity.
- rewrite Hr. cbn [F32.isfinite]. apply remainderf_360_fixed; assumption.
Qed.
End remainder_exact.

(** C8: for every three-component [float] vector with finite components,
    a second [normalize_angle] leaves the vector as the first one made
    it. *)
Theorem normalize_angle_idempotent
    (h : gmap loc (list F32.float)) (this : loc) (p y r : F32.float) :
  h !! this = Some [p; y; r] ->
  F32.is_float p -> F32.is_float y -> F32.is_float r ->
  F32.isfinite p = true -> F32.isfinite y = true -> F32.isfinite r = true ->
  exists h1 : gmap loc (list F32.float),
    normalize_angle 3 this h = Returned tt h1
    /\ normalize_angle 3 this h1 = Returned tt h1.
Proof.
  intros Hl Hp Hy _ _ _ _.
  eexists. split; [exact (normalize_angle_eq h this p y r Hl)|].
  rewrite (normalize_angle_eq _ this _ _ _ (lookup_insert_eq h this _)).
  rewrite (remainderf_360_idem p Hp), (remainderf_360_idem y Hy).
  rewrite insert_insert_eq. reflexivity.
Qed.

Lemma normalize_angle_idempotent_witness :
  exists h1 : gmap loc (list F32.float),
    normalize_angle 3 0
      {[ 0 := [F32.lit 450; F32.lit (-450); F32.lit 123] ]} = Returned tt h1
    /\ normalize_angle 3 0 h1 = Returned tt h1.
Proof.
  apply (normalize_angle_idempotent
           {[ 0 := [F32.lit 450; F32.lit (-450); F32.lit 123] ]} 0
           (F32.lit 450) (F32.lit (-450)) (F32.lit 123));
    vm_compute; reflexivity.
Defined.

(** ** The receiver of a member that returns a [pack] *)

Section mutation_facts.

Context {T : Type} {ST : Scalar T}.

Local Abbreviation heap := (gmap loc (list T)).

(** Assignments to [c] reach no other object. *)
Lemma mutate_frame (c l : loc) (ws : list (nat * T)) (h : heap) :
  l <> c ->
  match mutate c ws h with
  | Returned _ h' => h' !! l = h !! l
  | Failed _ => True
  end.
Proof.
  intros Hne. revert h. induction ws as [|[i v] ws IH]; intros h.
  - reflexivity.
  - cbn [mutate]. unfold bind at 1, index at 1, bind at 1, load at 1.
    destruct (h !! c) as [a|] eqn:Hc; [|exact I].
    destruct (decide (i < length a)) as [Hi|Hi]; [|exact I].
    unfold ret at 1.
    rewrite (bind_Returned _ _ _ _ _ (write_Ref_eq h c a i v Hc Hi)).
    specialize (IH (<[c := <[i := v]> a]> h)).
    destruct (mutate c ws _); [|exact I].
    rewrite IH. apply lookup_insert_ne. congruence.
Qed.

End mutation_facts.

(** C10: the members that return a copy leave the receiver as it is.
    [get_copy] returns a new vector with the components of the receiver,
    and no sequence of assignments to the copy changes the receiver;
    [normalized_angle], [normalized_length] and [get_angle] each return a
    new vector and leave the receiver, and every other object, as it
    was. *)
Theorem copies_leave_receiver :
  (forall (T : Type) (ST : Scalar T) (h : gmap loc (list T)) (this : loc)
          (a : list T),
     h !! this = Some a ->
     exists copy : loc,
       h !! copy = None
       /\ get_copy this h = Returned copy (<[copy := a]> h)
       /\ (<[copy := a]> h) !! this = Some a
       /\ forall ws : list (nat * T),
            match mutate copy ws (<[copy := a]> h) with
            | Returned _ h' => h' !! this = Some a
            | Failed _ => True
            end)
  /\ (forall (atan2f : F32.float -> F32.float -> F32.float)
             (h : gmap loc (list F32.float)) (this : loc)
             (p y r : F32.float),
        h !! this = Some [p; y; r] ->
        (exists (copy : loc) (v : list F32.float),
           h !! copy = None
           /\ normalized_angle 3 this h = Returned copy (<[copy := v]> h)
           /\ (<[copy := v]> h) !! this = Some [p; y; r])
        /\ (exists (copy : loc) (v : list F32.float),
              h !! copy = None
              /\ normalized_length 3 this h = Returned copy (<[copy := v]> h)
              /\ (<[copy := v]> h) !! this = Some [p; y; r])
        /\ (exists (angles : loc) (v : list F32.float),
              h !! angles = None
              /\ get_angle 3 atan2f this h = Returned angles (<[angles := v]> h)
              /\ (<[angles := v]> h) !! this = Some [p; y; r])).
Proof.
  assert (Hkeep : forall (T : Type) (h : gmap loc (list T)) (this c : loc)
                         (a v : list T),
            h !! this = Some a -> h !! c = None ->
            (<[c := v]> h) !! this = Some a).
  { intros T h this c a v Hl Hc. rewrite lookup_insert_ne; [exact Hl|].
    intros E. rewrite E, Hl in Hc. discriminate Hc. }
  split.
  - intros T ST h this a Hl. exists (fresh (dom h)).
    assert (Hf : h !! fresh (dom h) = None) by apply fresh_lookup.
    split; [exact Hf|].
    split; [exact (get_copy_eq h this a Hl)|].
    split; [exact (Hkeep T h this _ a a Hl Hf)|].
    intros ws.
    pose proof (mutate_frame (fresh (dom h)) this ws (<[fresh (dom h) := a]> h)
                  (not_eq_sym (fresh_ne h this a Hl))) as Hm.
    destruct (mutate _ ws _); [|exact I].
    rewrite Hm. exact (Hkeep T h this _ a a Hl Hf).
  - intros atan2f h this p y r Hl. split; [|split].
    + eexists. eexists. split; [apply fresh_lookup|].
      split; [exact (normalized_angle_eq h this p y r Hl)|].
      apply (Hkeep _ h this _ _ _ Hl). apply fresh_lookup.
    + eexists. eexists. split; [apply fresh_lookup|].
      split; [exact (normalized_length_eq h this p y r Hl)|].
      apply (Hkeep _ h this _ _ _ Hl). apply fresh_lookup.
    + eexists. eexists. split; [apply fresh_insert_lookup|].
      split; [exact (get_angle_eq atan2f h this p y r Hl)|].
      apply (Hkeep _ h this _ _ _ Hl). apply fresh_insert_lookup.
Qed.

Lemma copies_leave_receiver_witness :
  exists copy : loc,
    v123_456 !! copy = None
    /\ get_copy 0 v123_456
       = Returned copy
           (<[copy := [F32.lit 1; F32.lit 2; F32.lit 3]]> v123_456)
    /\ (<[copy := [F32.lit 1; F32.lit 2; F32.lit 3]]> v123_456) !! 0
       = Some [F32.lit 1; F32.lit 2; F32.lit 3]
    /\ forall ws : list (nat * F32.float),
         match mutate copy ws
                 (<[copy := [F32.lit 1; F32.lit 2; F32.lit 3]]> v123_456) with
         | Returned _ h' => h' !! 0 = Some [F32.lit 1; F32.lit 2; F32.lit 3]
         | Failed _ => True
         end.
Proof.
  apply (proj1 copies_leave_receiver F32.float float_Scalar v123_456 0
           [F32.lit 1; F32.lit 2; F32.lit 3]).
  vm_compute. reflexivity.
Defined.

(** * Further properties of the members *)

(** ** Bounds: [get_dot], [dot( T )] and [at] *)

Section bounds.

Context {T : Type} {ST : Scalar T}.
Variable Len : nat.

Local Abbreviation heap := (gmap loc (list T)).

Implicit Types (h : heap) (a : list T) (this : loc) (i N : nat).

Lemma dot_scalar_eq h this a N arg :
  h !! this = Some a -> N <= Len -> N <= length a ->
  dot_scalar Len N this arg h =
    Returned (sum_prod N a (replicate (length a) arg) s_zero) h.
Proof.
  intros Hl HN Ha. unfold dot_scalar, get_contents.
  replace (N <=? Len) with true by (symmetry; apply Nat.leb_le; exact HN).
  unfold static_assert. rewrite (bind_Returned _ _ h tt h) by reflexivity.
  rewrite (bind_Returned _ _ _ _ _ (load_eq _ _ _ Hl)).
  rewrite (for_loop_scalar a arg N 0) by (simpl; exact Ha).
  rewrite Nat.sub_0_r. reflexivity.
Qed.

Lemma static_assert_false {A} (k : unit -> M heap A) h :
  bind (static_assert false) k h = Failed StaticAssert.
Proof. reflexivity. Qed.

(** Only the first [n] components enter the sum. *)
Lemma sum_prod_take (n : nat) (a b : list T) (acc : T) :
  sum_prod n a b acc = sum_prod n (take n a) (take n b) acc.
Proof.
  revert a b acc. induction n as [|n IH]; intros a b acc.
  - destruct a, b; reflexivity.
  - destruct a as [|x a], b as [|y b]; try reflexivity.
    cbn [take sum_prod]. apply IH.
Qed.

(** X1: on a receiver that holds [Len] components, [get_dot<N>] and
    [dot<N>( T )] return for every [N <= Len], leave the store as it is,
    and use the first [N] components only; for [N > Len] the call is
    rejected by the [static_assert].  The loops never index out of
    range. *)
Theorem prefix_sums_in_bounds h this a N arg :
  h !! this = Some a -> length a = Len ->
  (N <= Len ->
     get_dot Len N this h
       = Returned (sum_prod N (take N a) (take N a) s_zero) h
     /\ dot_scalar Len N this arg h
       = Returned (sum_prod N (take N a) (replicate N arg) s_zero) h)
  /\ (Len < N ->
       get_dot Len N this h = Failed StaticAssert
       /\ dot_scalar Len N this arg h = Failed StaticAssert).
Proof.
  intros Hl Ha. split.
  - intros HN. split.
    + rewrite (get_dot_eq Len h this a N Hl HN) by lia.
      f_equal. apply sum_prod_take.
    + rewrite (dot_scalar_eq h this a N arg Hl HN) by lia.
      f_equal. rewrite sum_prod_take. f_equal.
      rewrite take_replicate. f_equal. lia.
  - intros HN. unfold get_dot, dot_scalar.
    replace (N <=? Len) with false by (symmetry; apply Nat.leb_gt; exact HN).
    split; apply static_assert_false.
Qed.

(** X2: on a receiver that holds [Len] components, [at( i )] returns
    component [i] (the const member) or a reference to it (the other one)
    when [i < Len], and aborts on its assertion when [i >= Len]; it never
    reaches an index outside the array, where the plain [operator[]]
    does. *)
Theorem at_checks_bounds h this a i :
  h !! this = Some a -> length a = Len ->
  (i < Len ->
     exists x, a !! i = Some x
       /\ at_const Len this i h = Returned (Temp x) h
       /\ at_ Len this i h = Returned (Ref this i) h)
  /\ (Len <= i ->
       at_const Len this i h = Failed AssertFail
       /\ at_ Len this i h = Failed AssertFail
       /\ index_const this i h = Failed OutOfRange
       /\ index this i h = Failed OutOfRange).
Proof.
  intros Hl Ha. split.
  - intros Hi. destruct (lookup_lt_is_Some_2 a i) as [x Hx]; [lia|].
    exists x. split; [exact Hx|]. unfold at_const, at_.
    replace (i <? Len) with true by (symmetry; apply Nat.ltb_lt; exact Hi).
    unfold assert. rewrite !(bind_Returned _ _ h tt h) by reflexivity.
    split.
    + exact (index_const_eq h this a i x Hl Hx).
    + apply (index_eq h this a i Hl). lia.
  - intros Hi. unfold at_const, at_.
    replace (i <? Len) with false by (symmetry; apply Nat.ltb_ge; exact Hi).
    split; [reflexivity|]. split; [reflexivity|].
    unfold index_const, index.
    rewrite !(bind_Returned _ _ _ _ _ (load_eq _ _ _ Hl)).
    rewrite (lookup_ge_None_2 a i) by lia.
    rewrite decide_False by lia. split; reflexivity.
Qed.

(** X3: an assignment through the reference that [operator[]( i )]
    returns is read back at [i] by the const [operator[]], leaves every
    other component and the component count as they were, and touches no
    other object. *)
Theorem index_write_read h this a i v :
  h !! this = Some a -> i < length a ->
  exists h',
    bind (index this i) (fun p => write p v) h = Returned tt h'
    /\ index_const this i h' = Returned (Temp v) h'
    /\ (forall j x, j <> i -> a !! j = Some x ->
          index_const this j h' = Returned (Temp x) h')
    /\ (exists a', h' !! this = Some a' /\ length a' = length a)
    /\ (forall l, l <> this -> h' !! l = h !! l).
Proof.
  intros Hl Hi. exists (<[this := <[i := v]> a]> h).
  assert (Hl' : (<[this := <[i := v]> a]> h) !! this = Some (<[i := v]> a))
    by apply lookup_insert_eq.
  split.
  - rewrite (bind_Returned _ _ _ _ _ (index_eq h this a i Hl Hi)).
    exact (write_Ref_eq h this a i v Hl Hi).
  - split.
    + apply (index_const_eq _ this _ i v Hl').
      apply list_lookup_insert_eq. exact Hi.
    + split.
      * intros j x Hj Hx. apply (index_const_eq _ this _ j x Hl').
        rewrite list_lookup_insert_ne by congruence. exact Hx.
      * split.
        -- eexists. split; [exact Hl'|]. apply length_insert.
        -- intros l Hne. apply lookup_insert_ne. congruence.
Qed.

(** X4: the constructor from [Len] arguments makes a new object whose
    component [i] is the [i]-th argument, [initialize] replaces all the
    components of an object by its arguments, and the default
    constructor makes a new object whose [Len] components are all
    [T{}]. *)
Theorem construction_stores_arguments h (args : list T) :
  length args = Len ->
  (exists this,
     h !! this = None
     /\ pack_init Len args h = Returned this (<[this := args]> h)
     /\ forall i x, args !! i = Some x ->
          at_const Len this i (<[this := args]> h)
            = Returned (Temp x) (<[this := args]> h))
  /\ (forall this a,
        h !! this = Some a ->
        initialize Len this args h = Returned tt (<[this := args]> h)
        /\ forall i x, args !! i = Some x ->
             at_const Len this i (<[this := args]> h)
               = Returned (Temp x) (<[this := args]> h))
  /\ (exists this,
        h !! this = None
        /\ pack_default Len h
            = Returned this (<[this := replicate Len s_zero]> h)
        /\ forall i, i < Len ->
             at_const Len this i (<[this := replicate Len s_zero]> h)
               = Returned (Temp s_zero) (<[this := replicate Len s_zero]> h)).
Proof.
  intros Hn.
  assert (Hat : forall (this : loc) (b : list T) i x,
            length b = Len -> b !! i = Some x ->
            at_const Len this i (<[this := b]> h)
              = Returned (Temp x) (<[this := b]> h)).
  { intros this b i x Hb Hx. unfold at_const.
    replace (i <? Len) with true
      by (symmetry; apply Nat.ltb_lt; rewrite <- Hb;
          exact (lookup_lt_Some _ _ _ Hx)).
    unfold assert. rewrite (bind_Returned _ _ _ tt _ eq_refl).
    apply (index_const_eq _ this b i x); [apply lookup_insert_eq|exact Hx]. }
  split; [|split].
  - exists (fresh (dom h)). split; [apply fresh_lookup|]. split.
    + unfold pack_init. rewrite Hn, Nat.eqb_refl. reflexivity.
    + intros i x Hx. apply Hat; assumption.
  - intros this a Hl. split.
    + unfold initialize. rewrite Hn, Nat.eqb_refl.
      unfold static_assert. rewrite (bind_Returned _ _ h tt h eq_refl).
      exact (store_eq h this a args Hl).
    + intros i x Hx. apply Hat; assumption.
  - exists (fresh (dom h)). split; [apply fresh_lookup|]. split.
    + reflexivity.
    + intros i Hi. apply Hat.
      * apply length_replicate.
      * apply lookup_replicate_2. exact Hi.
Qed.

End bounds.

Lemma prefix_sums_in_bounds_witness :
  get_dot 3 2 0 v123_456 = Returned (F32.lit 5) v123_456
  /\ dot_scalar 3 2 0 (F32.lit 2) v123_456 = Returned (F32.lit 6) v123_456.
Proof.
  destruct (prefix_sums_in_bounds 3 v123_456 0
              [F32.lit 1; F32.lit 2; F32.lit 3] 2 (F32.lit 2))
    as [H _].
  - vm_compute. reflexivity.
  - reflexivity.
  - destruct H as [H1 H2]; [lia|]. rewrite H1, H2.
    split; vm_compute; reflexivity.
Defined.

Lemma at_checks_bounds_witness :
  at_const 3 0 3 v123_456 = Failed AssertFail
  /\ at_const 3 0 2 v123_456 = Returned (Temp (F32.lit 3)) v123_456.
Proof.
  destruct (at_checks_bounds 3 v123_456 0
              [F32.lit 1; F32.lit 2; F32.lit 3] 3) as [_ H3].
  - vm_compute. reflexivity.
  - reflexivity.
  - destruct (at_checks_bounds 3 v123_456 0
                [F32.lit 1; F32.lit 2; F32.lit 3] 2) as [H2 _].
    + vm_compute. reflexivity.
    + reflexivity.
    + split.
      * apply H3. lia.
      * destruct H2 as (x & Hx & Hc & _); [lia|].
        rewrite Hc. change (Some (F32.lit 3) = Some x) in Hx.
        injection Hx as <-. reflexivity.
Defined.

Lemma index_write_read_witness :
  exists h',
    bind (index 0 1) (fun p => write p (F32.lit 9)) v123_456 = Returned tt h'
    /\ index_const 0 1 h' = Returned (Temp (F32.lit 9)) h'.
Proof.
  destruct (index_write_read v123_456 0
              [F32.lit 1; F32.lit 2; F32.lit 3] 1 (F32.lit 9))
    as (h' & Hw & Hr & _).
  - vm_compute. reflexivity.
  - simpl. lia.
  - exists h'. split; assumption.
Defined.

Lemma construction_stores_arguments_witness :
  exists this,
    v123_456 !! this = None
    /\ pack_init 3 [F32.lit 7; F32.lit 8; F32.lit 9] v123_456
       = Returned this (<[this := [F32.lit 7; F32.lit 8; F32.lit 9]]> v123_456).
Proof.
  destruct (construction_stores_arguments 3 v123_456
              [F32.lit 7; F32.lit 8; F32.lit 9] eq_refl)
    as [(this & Hf & Hp & _) _].
  exists this. split; assumption.
Defined.

(** ** [uint32_t]: the sums modulo 2^32 *)

Section uint32_sums.

Local Open Scope Z_scope.

Lemma sum_prod_u32 (n : nat) (a b : list Z) (acc : Z) :
  sum_prod (ST := uint32_Scalar) n a b (U32.wrap acc)
  = U32.wrap (acc + prefix_dot n a b).
Proof.
  unfold prefix_dot. revert a b acc. induction n as [|n IH]; intros a b acc.
  - destruct a, b; cbn; f_equal; lia.
  - destruct a as [|x a], b as [|y b]; try (cbn; f_equal; lia).
    cbn [sum_prod take zip_with foldr s_add s_mul uint32_Scalar].
    unfold U32.add, U32.mul.
    replace (U32.wrap (U32.wrap acc + U32.wrap (x * y)))
      with (U32.wrap (acc + x * y))
      by (unfold U32.wrap; apply Z.add_mod; lia).
    rewrite IH. f_equal. lia.
Qed.

Lemma prefix_dot_replicate_r (n : nat) (a : list Z) (arg : Z) :
  (n <= length a)%nat ->
  prefix_dot n a (replicate (length a) arg)
  = arg * foldr Z.add 0 (take n a).
Proof.
  unfold prefix_dot. revert a. induction n as [|n IH]; intros a Hn.
  - change (0 = arg * 0). lia.
  - destruct a as [|x a]; [simpl in Hn; lia|].
    cbn [length replicate take zip_with foldr].
    rewrite IH by (simpl in Hn; lia). lia.
Qed.

Lemma prefix_dot_replicate (n : nat) (c : Z) :
  prefix_dot n (replicate n c) (replicate n c) = Z.of_nat n * (c * c).
Proof.
  unfold prefix_dot. induction n as [|n IH].
  - reflexivity.
  - cbn [replicate take zip_with foldr]. rewrite IH. lia.
Qed.

(** X5: for [T = uint32_t] and [N <= Len], [get_dot<N>] returns the sum
    of the squares of the first [N] components modulo 2^32, and
    [dot<N>( arg )] returns [arg] times the sum of the first [N]
    components modulo 2^32; on a vector whose [Len] components all equal
    [c], [get_dot<Len>] returns [Len * c * c] modulo 2^32. *)
Theorem uint32_dot_wraps (Len N : nat) (h : gmap loc (list Z))
    (this : loc) (a : list Z) (arg c : Z) :
  h !! this = Some a -> length a = Len -> (N <= Len)%nat ->
  get_dot (ST := uint32_Scalar) Len N this h
    = Returned (prefix_dot N a a mod 2 ^ 32) h
  /\ dot_scalar (ST := uint32_Scalar) Len N this arg h
    = Returned ((arg * foldr Z.add 0 (take N a)) mod 2 ^ 32) h
  /\ (a = replicate Len c ->
       get_dot (ST := uint32_Scalar) Len Len this h
         = Returned ((Z.of_nat Len * (c * c)) mod 2 ^ 32) h).
Proof.
  intros Hl Ha HN.
  assert (Hz : @s_zero Z uint32_Scalar = U32.wrap 0) by reflexivity.
  split; [|split].
  - rewrite (get_dot_eq Len h this a N Hl HN) by lia.
    rewrite Hz, sum_prod_u32. reflexivity.
  - rewrite (dot_scalar_eq Len h this a N arg Hl HN) by lia.
    rewrite Hz, sum_prod_u32, prefix_dot_replicate_r by lia. reflexivity.
  - intros ->.
    rewrite (get_dot_eq Len h this _ Len Hl) by (rewrite ?length_replicate; lia).
    rewrite Hz, sum_prod_u32, prefix_dot_replicate. reflexivity.
Qed.

End uint32_sums.

Lemma uint32_dot_wraps_witness :
  get_dot (ST := uint32_Scalar) 2 2 0
    ({[ 0 := [65536; 65536]%Z ]} : gmap loc (list Z))
  = Returned 0%Z {[ 0 := [65536; 65536]%Z ]}.
Proof.
  destruct (uint32_dot_wraps 2 2 {[ 0 := [65536; 65536]%Z ]} 0
              [65536; 65536]%Z 1%Z 65536%Z) as (_ & _ & H).
  - vm_compute. reflexivity.
  - reflexivity.
  - lia.
  - rewrite H by reflexivity. vm_compute. reflexivity.
Defined.

(** ** [length<N>( const pack & )] *)

(** X6: for [T = float] and a receiver that holds [Len] components,
    [length<Len>( arg )] returns what [get_length<Len>( )] returns, the
    length of the receiver, for every argument. *)
Theorem length_pack_is_get_length (Len : nat)
    (h : gmap loc (list F32.float)) (this arg : loc) (a : list F32.float) :
  h !! this = Some a -> length a = Len ->
  length_pack Len Len this arg h = get_length Len Len this h.
Proof.
  intros Hl Ha. unfold length_pack, get_length, bind.
  rewrite (dot_is_get_dot Len h this arg a Hl Ha). reflexivity.
Qed.

Lemma length_pack_is_get_length_witness :
  length_pack 3 3 0 1 v123_456 = get_length 3 3 0 v123_456.
Proof.
  apply (length_pack_is_get_length 3 v123_456 0 1
           [F32.lit 1; F32.lit 2; F32.lit 3]).
  - vm_compute. reflexivity.
  - reflexivity.
Defined.

(** ** The gate [Len == 3U] *)

(** X7: for a component count other than 3, each member that has the
    [static_assert( Len == 3U )] is rejected, whatever the store holds. *)
Theorem angle_members_need_three_components (Len : nat)
    (h : gmap loc (list F32.float)) (this : loc) :
  Len <> 3 ->
  normalize_angle Len this h = Failed StaticAssert
  /\ normalized_angle Len this h = Failed StaticAssert
  /\ normalize_length Len this h = Failed StaticAssert
  /\ normalized_length Len this h = Failed StaticAssert
  /\ clamp_angle Len this h = Failed StaticAssert
  /\ normalize Len this h = Failed StaticAssert
  /\ normalized Len this h = Failed StaticAssert.
Proof.
  intros Hne.
  assert (Hf : (Len =? 3) = false) by (apply Nat.eqb_neq; exact Hne).
  unfold normalize_angle, normalized_angle, normalize_length,
    normalized_length, clamp_angle, normalize, normalized.
  rewrite Hf. repeat split; reflexivity.
Qed.

Lemma angle_members_need_three_components_witness :
  normalize_angle 2 0 {[ 0 := [F32.lit 1; F32.lit 2] ]} = Failed StaticAssert.
Proof.
  apply (angle_members_need_three_components 2
           {[ 0 := [F32.lit 1; F32.lit 2] ]} 0).
  lia.
Defined.

Lemma load_at_out_of_range (h : gmap loc (list F32.float)) (this : loc)
    (a : list F32.float) (i : nat) :
  h !! this = Some a -> length a <= i ->
  load_at this i h = Failed OutOfRange.
Proof.
  intros Hl Hi. unfold load_at, index.
  apply bind_Failed.
  rewrite (bind_Returned _ _ _ _ _ (load_eq _ _ _ Hl)).
  rewrite decide_False by lia. reflexivity.
Qed.

(** X8: [get_angle] has no such gate.  On a two-component [float]
    vector the call is accepted and then indexes [ROLL] outside the
    array, in [angles] when both components compare equal to zero and in
    [forward] otherwise. *)
Theorem get_angle_two_components_out_of_range
    (atan2f : F32.float -> F32.float -> F32.float)
    (h : gmap loc (list F32.float)) (this : loc) (p y : F32.float) :
  h !! this = Some [p; y] ->
  get_angle 2 atan2f this h = Failed OutOfRange.
Proof.
  intros Hl. unfold get_angle.
  step @get_copy_eq.
  set (f := fresh (dom h)). set (h1 := <[f := [p; y]]> h).
  assert (H1 : h1 !! f = Some [p; y]) by apply lookup_insert_eq.
  rewrite (bind_Returned (pack_default 2) _ h1 (fresh (dom h1))
             (<[fresh (dom h1) := replicate 2 (S754_zero false)]> h1)
             eq_refl).
  set (g := fresh (dom h1)). cbn [replicate].
  set (h2 := <[g := _]> h1).
  assert (Hgf : g <> f) by exact (fresh_ne h1 f _ H1).
  assert (H2f : h2 !! f = Some [p; y]).
  { unfold h2. rewrite lookup_insert_ne by exact Hgf. exact H1. }
  assert (H2g : h2 !! g = Some [S754_zero false; S754_zero false])
    by apply lookup_insert_eq.
  step load_at_eq.
  destruct (F32.eqb p (F32.lit 0)) eqn:Ep;
    [rewrite (bind_Returned _ _ h2 (F32.eqb y (F32.lit 0)) h2)
       by (step load_at_eq; reflexivity);
     destruct (F32.eqb y (F32.lit 0)) eqn:Ey
    |rewrite (bind_Returned _ _ h2 false h2) by reflexivity];
    apply bind_Failed; apply bind_Failed;
    eapply load_at_out_of_range; try eassumption; simpl; unfold ROLL; lia.
Qed.

Lemma get_angle_two_components_out_of_range_witness :
  get_angle 2 (fun _ _ => S754_nan) 0 {[ 0 := [F32.lit 1; F32.lit 2] ]}
  = Failed OutOfRange.
Proof.
  apply (get_angle_two_components_out_of_range (fun _ _ => S754_nan)
           {[ 0 := [F32.lit 1; F32.lit 2] ]} 0 (F32.lit 1) (F32.lit 2)).
  vm_compute. reflexivity.
Defined.

(** ** What the in-place members write *)

Lemma unit3_length (p y r : F32.float) : length (unit3 p y r) = 3.
Proof. unfold unit3. destruct (F32.neb _ _); reflexivity. Qed.

(** X9: [normalize_angle], [clamp_angle], [normalize_length] and
    [normalize] return on every three-component [float] vector, NaN and
    infinite components included; they write the receiver only: it keeps
    three components, no object is made or dropped, and every other
    object is as it was. *)
Theorem in_place_members_write_receiver_only
    (h : gmap loc (list F32.float)) (this : loc) (p y r : F32.float)
    (member : loc -> M (gmap loc (list F32.float)) unit) :
  h !! this = Some [p; y; r] ->
  In member [normalize_angle 3; clamp_angle 3; normalize_length 3;
             normalize 3] ->
  exists h' v,
    member this h = Returned tt h'
    /\ h' !! this = Some v /\ length v = 3
    /\ dom h' = dom h
    /\ forall l, l <> this -> h' !! l = h !! l.
Proof.
  intros Hl Hin.
  assert (Hgen : forall v : list F32.float, length v = 3 ->
            member this h = Returned tt (<[this := v]> h) ->
            exists h' v,
              member this h = Returned tt h'
              /\ h' !! this = Some v /\ length v = 3
              /\ dom h' = dom h
              /\ forall l, l <> this -> h' !! l = h !! l).
  { intros v Hv Hm. exists (<[this := v]> h), v.
    split; [exact Hm|]. split; [apply lookup_insert_eq|].
    split; [exact Hv|]. split.
    - apply dom_insert_lookup_L. rewrite Hl. eexists. reflexivity.
    - intros l Hne. apply lookup_insert_ne. congruence. }
  destruct Hin as [<-|[<-|[<-|[<-|[]]]]].
  - eapply Hgen; [|exact (normalize_angle_eq h this p y r Hl)]. reflexivity.
  - eapply Hgen; [|exact (clamp_angle_eq h this p y r Hl)]. reflexivity.
  - eapply Hgen; [|exact (normalize_length_eq h this p y r Hl)].
    apply unit3_length.
  - eapply Hgen; [|exact (normalize_eq h this p y r Hl)].
    apply unit3_length.
Qed.

Lemma in_place_members_write_receiver_only_witness :
  exists h' v,
    clamp_angle 3 1 v123_456 = Returned tt h'
    /\ h' !! 1 = Some v /\ length v = 3
    /\ dom h' = dom v123_456
    /\ forall l, l <> 1 -> h' !! l = v123_456 !! l.
Proof.
  apply (in_place_members_write_receiver_only v123_456 1
           (F32.lit 4) (F32.lit 5) (F32.lit 6) (clamp_angle 3)).
  - vm_compute. reflexivity.
  - simpl. tauto.
Defined.

(** X10: [normalized_angle] and [normalized_length] return a new vector
    with exactly the components that [normalize_angle] and
    [normalize_length] leave in the receiver. *)
Theorem copies_agree_with_in_place
    (h : gmap loc (list F32.float)) (this : loc) (p y r : F32.float) :
  h !! this = Some [p; y; r] ->
  (exists copy v,
     h !! copy = None
     /\ normalized_angle 3 this h = Returned copy (<[copy := v]> h)
     /\ normalize_angle 3 this h = Returned tt (<[this := v]> h))
  /\ (exists copy v,
        h !! copy = None
        /\ normalized_length 3 this h = Returned copy (<[copy := v]> h)
        /\ normalize_length 3 this h = Returned tt (<[this := v]> h)).
Proof.
  intros Hl. split.
  - eexists. eexists. split; [apply fresh_lookup|].
    split; [exact (normalized_angle_eq h this p y r Hl)|].
    exact (normalize_angle_eq h this p y r Hl).
  - eexists. eexists. split; [apply fresh_lookup|].
    split; [exact (normalized_length_eq h this p y r Hl)|].
    exact (normalize_length_eq h this p y r Hl).
Qed.

Lemma copies_agree_with_in_place_witness :
  exists copy v,
    v123_456 !! copy = None
    /\ normalized_length 3 0 v123_456
       = Returned copy (<[copy := v]> v123_456)
    /\ normalize_length 3 0 v123_456 = Returned tt (<[0 := v]> v123_456).
Proof.
  apply (copies_agree_with_in_place v123_456 0
           (F32.lit 1) (F32.lit 2) (F32.lit 3)).
  vm_compute. reflexivity.
Defined.

(** ** Degenerate inputs of [normalize_length] and [normalize] *)

Lemma add_nan_r (x : F32.float) : F32.add x S754_nan = S754_nan.
Proof. destruct x; reflexivity. Qed.

Lemma mul_nan_r (x : F32.float) : F32.mul x S754_nan = S754_nan.
Proof. destruct x; reflexivity. Qed.

Lemma div_nan_r (x : F32.float) : F32.div x S754_nan = S754_nan.
Proof. destruct x; reflexivity. Qed.

Lemma length3_nan (p y r : F32.float) :
  F32.is_nan p || F32.is_nan y || F32.is_nan r = true ->
  length3 p y r = S754_nan.
Proof.
  intros H. unfold length3.
  destruct (F32.is_nan p) eqn:Hp; [destruct p; try discriminate; reflexivity|].
  destruct (F32.is_nan y) eqn:Hy.
  - destruct y; try discriminate.
    change (F32.mul S754_nan S754_nan) with S754_nan.
    rewrite add_nan_r. reflexivity.
  - destruct r; try discriminate.
    change (F32.mul S754_nan S754_nan) with S754_nan.
    rewrite add_nan_r. reflexivity.
Qed.

(** X11: on a vector whose three components are zeros of either sign,
    [normalize_length] and [normalize] set (0, 0, 1).  On a vector with a
    NaN component the length is a NaN, which compares unequal to 0: the
    fallback is not taken and all three components become NaN. *)
Theorem normalize_length_degenerate
    (h : gmap loc (list F32.float)) (this : loc) (p y r : F32.float) :
  h !! this = Some [p; y; r] ->
  ((exists sp sy sr, p = S754_zero sp /\ y = S754_zero sy /\ r = S754_zero sr) ->
     normalize_length 3 this h
       = Returned tt (<[this := [F32.lit 0; F32.lit 0; F32.lit 1]]> h)
     /\ normalize 3 this h
       = Returned tt (<[this := [F32.lit 0; F32.lit 0; F32.lit 1]]> h))
  /\ (F32.is_nan p || F32.is_nan y || F32.is_nan r = true ->
       normalize_length 3 this h
         = Returned tt (<[this := [S754_nan; S754_nan; S754_nan]]> h)
       /\ normalize 3 this h
         = Returned tt (<[this := [S754_nan; S754_nan; S754_nan]]> h)).
Proof.
  intros Hl.
  rewrite (normalize_eq h this p y r Hl),
    (normalize_length_eq h this p y r Hl).
  split.
  - intros (sp & sy & sr & -> & -> & ->).
    assert (Hu : unit3 (S754_zero sp) (S754_zero sy) (S754_zero sr)
                 = [F32.lit 0; F32.lit 0; F32.lit 1])
      by (destruct sp, sy, sr; vm_compute; reflexivity).
    rewrite Hu. split; reflexivity.
  - intros Hn.
    assert (Hu : unit3 p y r = [S754_nan; S754_nan; S754_nan]).
    { unfold unit3. rewrite (length3_nan p y r Hn).
      change (F32.neb S754_nan (F32.lit 0)) with true.
      cbv iota. rewrite !div_nan_r. reflexivity. }
    rewrite Hu. split; reflexivity.
Qed.

Lemma normalize_length_degenerate_witness :
  normalize_length 3 0 {[ 0 := [F32.lit 1; S754_nan; F32.lit 0] ]}
  = Returned tt
      (<[0 := [S754_nan; S754_nan; S754_nan]]>
         {[ 0 := [F32.lit 1; S754_nan; F32.lit 0] ]}).
Proof.
  destruct (normalize_length_degenerate
              {[ 0 := [F32.lit 1; S754_nan; F32.lit 0] ]} 0
              (F32.lit 1) S754_nan (F32.lit 0)) as [_ H].
  - vm_compute. reflexivity.
  - apply H. reflexivity.
Defined.

(** ** [clamp_angle] and [normalize_angle] together *)

Section angle_ranges.

Local Open Scope Z_scope.

(** [a <= b] excludes [b < a]. *)
Lemma leb_not_ltb (a b : F32.float) :
  F32.leb a b = true -> F32.ltb b a = false.
Proof.
  unfold F32.leb, F32.ltb, SFleb, SFltb.
  rewrite (SFcompare_antisym a b).
  destruct (SFcompare a b) as [[| |]|]; simpl; congruence.
Qed.

(** [std::clamp] returns a value between its bounds as it is. *)
Lemma clamp_in_range (v lo hi : F32.float) :
  F32.leb lo v = true -> F32.leb v hi = true -> F32.clamp v lo hi = v.
Proof.
  intros Hlo Hhi. unfold F32.clamp.
  rewrite (leb_not_ltb lo v Hlo), (leb_not_ltb v hi Hhi). reflexivity.
Qed.

Lemma clamp_idem (v lo hi : F32.float) :
  F32.ltb lo lo = false -> F32.ltb hi hi = false -> F32.ltb hi lo = false ->
  F32.clamp (F32.clamp v lo hi) lo hi = F32.clamp v lo hi.
Proof.
  intros Hll Hhh Hhl. unfold F32.clamp.
  destruct (F32.ltb v lo) eqn:E1.
  - rewrite Hll, Hhl. reflexivity.
  - destruct (F32.ltb hi v) eqn:E2.
    + destruct (F32.ltb hi lo) eqn:E3; [discriminate|].
      rewrite Hhh.
      destruct (F32.ltb hi lo); reflexivity.
    + rewrite E1, E2. reflexivity.
Qed.

Lemma compare_cont_Eq_le (m n : positive) :
  Pos.compare_cont Eq m n <> Gt <-> Zpos m <= Zpos n.
Proof.
  unfold Z.le. cbn [Z.compare]. reflexivity.
Qed.

Lemma compare_cont_Eq_swap (m n : positive) :
  Pos.compare_cont Eq m n = CompOpp (Pos.compare_cont Eq n m).
Proof. symmetry. exact (Pos.compare_cont_antisym n m Eq). Qed.

Lemma at_most_180_leb (s : bool) (m : positive) (e : Z) :
  canonical_mantissa F32.prec F32.emax m e = true ->
  at_most_180 m e ->
  F32.leb (F32.lit (-180)) (S754_finite s m e) = true
  /\ F32.leb (S754_finite s m e) (F32.lit 180) = true.
Proof.
  intros Hc [He H2].
  unfold canonical_mantissa in Hc. apply Z.eqb_eq in Hc.
  unfold fexp, emin, F32.prec, F32.emax in Hc.
  destruct (digits2_pos_bounds m) as [Hlo Hhi].
  assert (Hm : e = -15 -> False).
  { intros ->. change (2 ^ (-15 - -15)) with 1 in H2.
    assert (Zpos (digits2_pos m) = 24) as Hd by lia.
    rewrite Hd in Hlo. change (2 ^ (24 - 1)) with 8388608 in Hlo. lia. }
  assert (Hle : e = -16 -> Zpos m <= 11796480).
  { intros ->. change (2 ^ (-15 - -16)) with 2 in H2. lia. }
  change (F32.lit (-180)) with (S754_finite true 11796480 (-16)).
  change (F32.lit 180) with (S754_finite false 11796480 (-16)).
  unfold F32.leb, SFleb. destruct s; cbn [SFcompare]; split; try reflexivity.
  - rewrite (Z.compare_antisym e (-16)).
    destruct (e ?= -16) eqn:E; cbn [CompOpp].
    + apply Z.compare_eq in E.
      destruct (Pos.compare_cont Eq 11796480 m) eqn:Ec; try reflexivity.
      exfalso.
      assert (Hn : Pos.compare_cont Eq m 11796480 <> Gt)
        by (apply (proj2 (compare_cont_Eq_le m 11796480)); auto).
      rewrite (compare_cont_Eq_swap m 11796480), Ec in Hn.
      apply Hn. reflexivity.
    + reflexivity.
    + exfalso. change (e > -16) in E. lia.
  - destruct (e ?= -16) eqn:E.
    + apply Z.compare_eq in E.
      destruct (Pos.compare_cont Eq m 11796480) eqn:Ec; try reflexivity.
      exfalso. apply (proj2 (compare_cont_Eq_le m 11796480)); auto.
    + reflexivity.
    + exfalso. change (e > -16) in E. lia.
Qed.

Lemma leb_at_most_180 (s : bool) (m : positive) (e : Z) :
  F32.is_float (S754_finite s m e) ->
  F32.leb (F32.lit (-180)) (S754_finite s m e) = true ->
  F32.leb (S754_finite s m e) (F32.lit 180) = true ->
  at_most_180 m e.
Proof.
  intros Hv Hlo Hhi. apply is_float_finite in Hv. destruct Hv as [Hd He].
  destruct (digits2_pos_bounds m) as [_ Hm].
  assert (H24 : Zpos m < 2 ^ 24).
  { assert (2 ^ Zpos (digits2_pos m) <= 2 ^ 24)
      by (apply Z.pow_le_mono_r; lia). lia. }
  change (2 ^ 24) with 16777216 in H24.
  assert (Hcases : e < -16 \/ (e = -16 /\ Zpos m <= 11796480)).
  { revert Hlo Hhi.
    change (F32.lit (-180)) with (S754_finite true 11796480 (-16)).
    change (F32.lit 180) with (S754_finite false 11796480 (-16)).
    unfold F32.leb, SFleb. destruct s; cbn [SFcompare].
    - intros Hlo _. rewrite (Z.compare_antisym e (-16)) in Hlo.
      destruct (e ?= -16) eqn:E; cbn [CompOpp] in Hlo.
      + right. split; [apply Z.compare_eq; exact E|].
        apply (proj1 (compare_cont_Eq_le m 11796480)). intros Hg.
        rewrite (compare_cont_Eq_swap m 11796480) in Hg.
        rewrite Hg in Hlo. discriminate Hlo.
      + left. change (e < -16) in E. exact E.
      + discriminate Hlo.
    - intros _ Hhi.
      destruct (e ?= -16) eqn:E.
      + right. split; [apply Z.compare_eq; exact E|].
        apply (proj1 (compare_cont_Eq_le m 11796480)). intros Hg.
        rewrite Hg in Hhi.
        discriminate Hhi.
      + left. change (e < -16) in E. exact E.
      + discriminate Hhi. }
  unfold at_most_180. destruct Hcases as [Hlt|[-> Hle]].
  - split; [lia|].
    assert (2 ^ 2 <= 2 ^ (-15 - e)) by (apply Z.pow_le_mono_r; lia).
    change (2 ^ 2) with 4 in *. lia.
  - split; [lia|]. change (2 ^ (-15 - -16)) with 2. lia.
Qed.

(** What one line of [normalize_angle] assigns is finite and lies in
    [-180, 180]. *)
Lemma normalized_component_range (x : F32.float) :
  F32.is_float x ->
  let x' := if F32.isfinite x then F32.remainderf x (F32.lit 360)
            else F32.lit 0 in
  F32.isfinite x' = true
  /\ F32.is_float x'
  /\ F32.leb (F32.lit (-180)) x' = true
  /\ F32.leb x' (F32.lit 180) = true.
Proof.
  intros Hv. cbv zeta.
  destruct x as [s|s| |s m e]; cbn [F32.isfinite];
    try (repeat split; reflexivity).
  destruct (remainderf_360_finite s m e Hv)
    as [Hz|(s' & m' & e' & Hr & Hc & He & H2)].
  - rewrite Hz. destruct s; repeat split; reflexivity.
  - rewrite Hr.
    destruct (at_most_180_leb s' m' e' Hc (conj He H2)) as [Hlo Hhi].
    split; [reflexivity|]. split; [|split; assumption].
    unfold F32.is_float, valid_binary, bounded. rewrite Hc.
    apply Z.leb_le. unfold F32.emax, F32.prec. lia.
Qed.

(** A component in [-180, 180] is left as it is by that line. *)
Lemma normalized_component_fixed (x : F32.float) :
  F32.is_float x ->
  F32.leb (F32.lit (-180)) x = true -> F32.leb x (F32.lit 180) = true ->
  (if F32.isfinite x then F32.remainderf x (F32.lit 360) else F32.lit 0) = x.
Proof.
  intros Hv Hlo Hhi. destruct x as [s|s| |s m e]; cbn [F32.isfinite].
  - reflexivity.
  - destruct s; [discriminate Hlo|discriminate Hhi].
  - discriminate Hlo.
  - destruct (leb_at_most_180 s m e Hv Hlo Hhi) as [He H2].
    apply remainderf_360_fixed; try assumption.
    unfold F32.is_float, valid_binary, bounded in Hv.
    apply andb_prop in Hv. exact (proj1 Hv).
Qed.

End angle_ranges.

Lemma leb_89_180 (x : F32.float) :
  (F32.leb x (F32.lit 89) = true -> F32.leb x (F32.lit 180) = true)
  /\ (F32.leb (F32.lit (-89)) x = true ->
      F32.leb (F32.lit (-180)) x = true).
Proof.
  change (F32.lit 89) with (S754_finite false 11665408 (-17)).
  change (F32.lit (-89)) with (S754_finite true 11665408 (-17)).
  change (F32.lit 180) with (S754_finite false 11796480 (-16)).
  change (F32.lit (-180)) with (S754_finite true 11796480 (-16)).
  unfold F32.leb, SFleb.
  destruct x as [s|s| |s m e]; try (split; intros H; exact H).
  destruct s; cbn [SFcompare]; split; intros H; try reflexivity.
  - rewrite (Z.compare_antisym e (-17)) in H.
    rewrite (Z.compare_antisym e (-16)).
    destruct (e ?= -17)%Z eqn:E; cbn [CompOpp] in H.
    + apply Z.compare_eq in E.
      replace (e ?= -16)%Z with Lt
        by (symmetry; apply (proj2 (Z.compare_lt_iff _ _)); lia).
      reflexivity.
    + change (e < -17)%Z in E.
      replace (e ?= -16)%Z with Lt
        by (symmetry; apply (proj2 (Z.compare_lt_iff _ _)); lia).
      reflexivity.
    + discriminate H.
  - destruct (e ?= -17)%Z eqn:E.
    + apply Z.compare_eq in E.
      replace (e ?= -16)%Z with Lt
        by (symmetry; apply (proj2 (Z.compare_lt_iff _ _)); lia).
      reflexivity.
    + change (e < -17)%Z in E.
      replace (e ?= -16)%Z with Lt
        by (symmetry; apply (proj2 (Z.compare_lt_iff _ _)); lia).
      reflexivity.
    + discriminate H.
Qed.

Lemma clamp_is_float (v lo hi : F32.float) :
  F32.is_float v -> F32.is_float lo -> F32.is_float hi ->
  F32.is_float (F32.clamp v lo hi).
Proof.
  intros Hv Hlo Hhi. unfold F32.clamp.
  destruct (F32.ltb v lo); [exact Hlo|].
  destruct (F32.ltb hi v); [exact Hhi|exact Hv].
Qed.

Lemma clamp_not_nan (v lo hi : F32.float) :
  F32.is_nan v = false -> F32.is_nan lo = false -> F32.is_nan hi = false ->
  F32.is_nan (F32.clamp v lo hi) = false.
Proof.
  intros Hv Hlo Hhi. unfold F32.clamp.
  destruct (F32.ltb v lo); [exact Hlo|].
  destruct (F32.ltb hi v); [exact Hhi|exact Hv].
Qed.

(** X12: [clamp_angle] is idempotent on every three-component [float]
    vector, NaN and infinite components included: a second call leaves
    the vector as the first one made it. *)
Theorem clamp_angle_idempotent
    (h : gmap loc (list F32.float)) (this : loc) (p y r : F32.float) :
  h !! this = Some [p; y; r] ->
  exists h1 : gmap loc (list F32.float),
    clamp_angle 3 this h = Returned tt h1
    /\ clamp_angle 3 this h1 = Returned tt h1.
Proof.
  intros Hl. eexists. split; [exact (clamp_angle_eq h this p y r Hl)|].
  rewrite (clamp_angle_eq _ this _ _ _ (lookup_insert_eq h this _)).
  rewrite !clamp_idem by reflexivity.
  change (F32.clamp (F32.lit 0) (F32.opp (F32.lit 180)) (F32.lit 180))
    with (F32.lit 0).
  rewrite insert_insert_eq. reflexivity.
Qed.

Lemma clamp_angle_idempotent_witness :
  exists h1 : gmap loc (list F32.float),
    clamp_angle 3 0 {[ 0 := [S754_nan; S754_infinity true; F32.lit 7] ]}
      = Returned tt h1
    /\ clamp_angle 3 0 h1 = Returned tt h1.
Proof.
  apply (clamp_angle_idempotent
           {[ 0 := [S754_nan; S754_infinity true; F32.lit 7] ]} 0
           S754_nan (S754_infinity true) (F32.lit 7)).
  vm_compute. reflexivity.
Defined.

(** X13: after [normalize_angle], pitch and yaw are finite and lie in
    the closed interval [-180, 180], whatever they were before (NaN and
    infinities become 0), and roll is 0.  Both ends are reached: 540
    becomes -180 and -540 becomes 180. *)
Theorem normalize_angle_range :
  (forall (h : gmap loc (list F32.float)) (this : loc) (p y r : F32.float),
     h !! this = Some [p; y; r] ->
     F32.is_float p -> F32.is_float y ->
     exists p' y' : F32.float,
       normalize_angle 3 this h
         = Returned tt (<[this := [p'; y'; F32.lit 0]]> h)
       /\ F32.isfinite p' = true /\ F32.isfinite y' = true
       /\ F32.leb (F32.lit (-180)) p' = true
       /\ F32.leb p' (F32.lit 180) = true
       /\ F32.leb (F32.lit (-180)) y' = true
       /\ F32.leb y' (F32.lit 180) = true)
  /\ normalize_angle 3 0 {[ 0 := [F32.lit 540; F32.lit (-540); F32.lit 1] ]}
     = Returned tt {[ 0 := [F32.lit (-180); F32.lit 180; F32.lit 0] ]}.
Proof.
  split; [|vm_compute; reflexivity].
  intros h this p y r Hl Hp Hy.
  destruct (normalized_component_range p Hp) as (Fp & _ & Lp & Up).
  destruct (normalized_component_range y Hy) as (Fy & _ & Ly & Uy).
  eexists. eexists.
  split; [exact (normalize_angle_eq h this p y r Hl)|].
  repeat split; assumption.
Qed.

Lemma normalize_angle_range_witness :
  exists p' y' : F32.float,
    normalize_angle 3 0
      {[ 0 := [S754_infinity false; F32.lit 1000; F32.lit 1] ]}
      = Returned tt
          (<[0 := [p'; y'; F32.lit 0]]>
             {[ 0 := [S754_infinity false; F32.lit 1000; F32.lit 1] ]})
    /\ F32.isfinite p' = true /\ F32.isfinite y' = true
    /\ F32.leb (F32.lit (-180)) p' = true
    /\ F32.leb p' (F32.lit 180) = true
    /\ F32.leb (F32.lit (-180)) y' = true
    /\ F32.leb y' (F32.lit 180) = true.
Proof.
  apply (proj1 normalize_angle_range
           {[ 0 := [S754_infinity false; F32.lit 1000; F32.lit 1] ]} 0
           (S754_infinity false) (F32.lit 1000) (F32.lit 1));
    vm_compute; reflexivity.
Defined.

(** X14: [normalize_angle] leaves pitch and yaw as they are when they lie
    in [-180, 180]; it then only sets roll to 0. *)
Theorem normalize_angle_fixes_range
    (h : gmap loc (list F32.float)) (this : loc) (p y r : F32.float) :
  h !! this = Some [p; y; r] ->
  F32.is_float p -> F32.is_float y ->
  F32.leb (F32.lit (-180)) p = true -> F32.leb p (F32.lit 180) = true ->
  F32.leb (F32.lit (-180)) y = true -> F32.leb y (F32.lit 180) = true ->
  normalize_angle 3 this h = Returned tt (<[this := [p; y; F32.lit 0]]> h).
Proof.
  intros Hl Hp Hy Lp Up Ly Uy.
  rewrite (normalize_angle_eq h this p y r Hl).
  rewrite (normalized_component_fixed p Hp Lp Up),
    (normalized_component_fixed y Hy Ly Uy).
  reflexivity.
Qed.

Lemma normalize_angle_fixes_range_witness :
  normalize_angle 3 0 {[ 0 := [F32.lit (-180); F32.lit 180; F32.lit 5] ]}
  = Returned tt
      (<[0 := [F32.lit (-180); F32.lit 180; F32.lit 0]]>
         {[ 0 := [F32.lit (-180); F32.lit 180; F32.lit 5] ]}).
Proof.
  apply (normalize_angle_fixes_range
           {[ 0 := [F32.lit (-180); F32.lit 180; F32.lit 5] ]} 0
           (F32.lit (-180)) (F32.lit 180) (F32.lit 5));
    vm_compute; reflexivity.
Defined.

(** X15: [clamp_angle] after [normalize_angle] changes pitch only: the
    yaw that [normalize_angle] leaves is already in [-180, 180]. *)
Theorem clamp_after_normalize_keeps_yaw
    (h : gmap loc (list F32.float)) (this : loc) (p y r : F32.float) :
  h !! this = Some [p; y; r] ->
  F32.is_float p -> F32.is_float y ->
  exists (h1 : gmap loc (list F32.float)) (p' y' : F32.float),
    normalize_angle 3 this h = Returned tt h1
    /\ h1 !! this = Some [p'; y'; F32.lit 0]
    /\ clamp_angle 3 this h1
       = Returned tt
           (<[this := [ F32.clamp p' (F32.opp (F32.lit 89)) (F32.lit 89);
                        y'; F32.lit 0 ]]> h).
Proof.
  intros Hl Hp Hy.
  destruct (normalized_component_range y Hy) as (_ & _ & Ly & Uy).
  eexists. eexists. eexists.
  split; [exact (normalize_angle_eq h this p y r Hl)|].
  split; [apply lookup_insert_eq|].
  rewrite (clamp_angle_eq _ this _ _ _ (lookup_insert_eq h this _)).
  rewrite (clamp_in_range _ (F32.opp (F32.lit 180)) (F32.lit 180) Ly Uy).
  rewrite insert_insert_eq. reflexivity.
Qed.

Lemma clamp_after_normalize_keeps_yaw_witness :
  exists (h1 : gmap loc (list F32.float)) (p' y' : F32.float),
    normalize_angle 3 0 {[ 0 := [F32.lit 100; F32.lit 200; F32.lit 1] ]}
      = Returned tt h1
    /\ h1 !! 0 = Some [p'; y'; F32.lit 0]
    /\ clamp_angle 3 0 h1
       = Returned tt
           (<[0 := [ F32.clamp p' (F32.opp (F32.lit 89)) (F32.lit 89);
                     y'; F32.lit 0 ]]>
              {[ 0 := [F32.lit 100; F32.lit 200; F32.lit 1] ]}).
Proof.
  apply (clamp_after_normalize_keeps_yaw
           {[ 0 := [F32.lit 100; F32.lit 200; F32.lit 1] ]} 0
           (F32.lit 100) (F32.lit 200) (F32.lit 1));
    vm_compute; reflexivity.
Defined.

(** X16: [normalize_angle] after [clamp_angle] changes nothing when pitch
    and yaw are not NaN: what [clamp_angle] leaves is a fixed point of
    [normalize_angle]. *)
Theorem normalize_after_clamp_is_identity
    (h : gmap loc (list F32.float)) (this : loc) (p y r : F32.float) :
  h !! this = Some [p; y; r] ->
  F32.is_float p -> F32.is_float y ->
  F32.is_nan p = false -> F32.is_nan y = false ->
  exists h1 : gmap loc (list F32.float),
    clamp_angle 3 this h = Returned tt h1
    /\ normalize_angle 3 this h1 = Returned tt h1.
Proof.
  intros Hl Hp Hy Np Ny.
  eexists. split; [exact (clamp_angle_eq h this p y r Hl)|].
  destruct (clamp_range p (F32.opp (F32.lit 89)) (F32.lit 89) Np
              eq_refl eq_refl eq_refl) as [Lp Up].
  destruct (clamp_range y (F32.opp (F32.lit 180)) (F32.lit 180) Ny
              eq_refl eq_refl eq_refl) as [Ly Uy].
  rewrite (normalize_angle_fixes_range _ this _ _ _
             (lookup_insert_eq h this _)).
  - rewrite insert_insert_eq. reflexivity.
  - apply clamp_is_float; [exact Hp|reflexivity|reflexivity].
  - apply clamp_is_float; [exact Hy|reflexivity|reflexivity].
  - apply (proj2 (leb_89_180 _)). exact Lp.
  - apply (proj1 (leb_89_180 _)). exact Up.
  - exact Ly.
  - exact Uy.
Qed.

Lemma normalize_after_clamp_is_identity_witness :
  exists h1 : gmap loc (list F32.float),
    clamp_angle 3 0 {[ 0 := [F32.lit 95; S754_infinity true; F32.lit 7] ]}
      = Returned tt h1
    /\ normalize_angle 3 0 h1 = Returned tt h1.
Proof.
  apply (normalize_after_clamp_is_identity
           {[ 0 := [F32.lit 95; S754_infinity true; F32.lit 7] ]} 0
           (F32.lit 95) (S754_infinity true) (F32.lit 7));
    vm_compute; reflexivity.
Defined.

(** ** Signs: [get_length] and [normalize_length] *)

Lemma binary_round_aux_sign (s : bool) (m e : Z) (l : location) :
  sign_is s (binary_round_aux F32.prec F32.emax s m e l).
Proof.
  unfold binary_round_aux.
  destruct (shr_fexp F32.prec F32.emax m e l) as [mrs' e'].
  destruct (shr_fexp F32.prec F32.emax _ e' loc_Exact) as [mrs'' e''].
  destruct (shr_m mrs''); [reflexivity| |exact I].
  destruct (e'' <=? F32.emax - F32.prec)%Z; reflexivity.
Qed.

Lemma binary_round_sign (s : bool) (m : positive) (e : Z) :
  sign_is s (binary_round F32.prec F32.emax s m e).
Proof.
  unfold binary_round.
  destruct (shl_align m e _) as [mz ez]. apply binary_round_aux_sign.
Qed.

Lemma mul_self_sign (x : F32.float) : sign_is false (F32.mul x x).
Proof.
  destruct x as [s|s| |s m e]; cbn [F32.mul SFmul sign_is];
    try (destruct s; reflexivity); try exact I.
  unfold F32.mul, SFmul. rewrite xorb_nilpotent.
  apply binary_round_aux_sign.
Qed.

Lemma add_sign (x y : F32.float) :
  sign_is false x -> sign_is false y -> sign_is false (F32.add x y).
Proof.
  destruct x as [sx|sx| |sx mx ex], y as [sy|sy| |sy my ey];
    cbn [sign_is]; intros Hx Hy; subst;
    try exact I; try reflexivity.
  unfold F32.add, SFadd. cbn [cond_Zopp Z.add binary_normalize].
  apply binary_round_sign.
Qed.

Lemma sqrt_sign (x : F32.float) :
  sign_is false x -> sign_is false (F32.sqrt x).
Proof.
  destruct x as [s|s| |s m e]; cbn [sign_is]; intros Hx; subst;
    try exact I; try reflexivity.
  unfold F32.sqrt, SFsqrt.
  destruct (SFsqrt_core_binary F32.prec F32.emax (Z.pos m) e) as [[mz ez] lz].
  apply binary_round_aux_sign.
Qed.

Lemma div_sign (s : bool) (x len : F32.float) :
  sign_is s x -> sign_is false len -> sign_is s (F32.div x len).
Proof.
  destruct x as [sx|sx| |sx mx ex], len as [sy|sy| |sy my ey];
    cbn [sign_is]; intros Hx Hy; subst;
    try exact I; try (cbn; apply xorb_false_r).
  unfold F32.div, SFdiv.
  destruct (SFdiv_core_binary F32.prec F32.emax (Z.pos mx) ex (Z.pos my) ey)
    as [[mz ez] lz].
  rewrite xorb_false_r. apply binary_round_aux_sign.
Qed.

Lemma length3_sign (p y r : F32.float) : sign_is false (length3 p y r).
Proof.
  unfold length3. apply sqrt_sign.
  repeat apply add_sign; try apply mul_self_sign. reflexivity.
Qed.

Lemma length2_sign (p y : F32.float) : sign_is false (length2 p y).
Proof.
  unfold length2. apply sqrt_sign.
  repeat apply add_sign; try apply mul_self_sign. reflexivity.
Qed.

(** X17: on every three-component [float] vector, [get_length<3>( )] and
    [get_length<2>( )] return and leave the store as it is; the result is
    a NaN or has a clear sign bit: never a negative number, never -0. *)
Theorem get_length_not_negative
    (h : gmap loc (list F32.float)) (this : loc) (p y r : F32.float) :
  h !! this = Some [p; y; r] ->
  exists len3 len2 : F32.float,
    get_length 3 3 this h = Returned len3 h
    /\ get_length 3 2 this h = Returned len2 h
    /\ sign_is false len3 /\ sign_is false len2.
Proof.
  intros Hl. exists (length3 p y r), (length2 p y).
  split; [exact (get_length_3_eq h this p y r Hl)|].
  split; [exact (get_length_2_eq h this p y r Hl)|].
  split; [apply length3_sign|apply length2_sign].
Qed.

Lemma get_length_not_negative_witness :
  exists len3 len2 : F32.float,
    get_length 3 3 1 v123_456 = Returned len3 v123_456
    /\ get_length 3 2 1 v123_456 = Returned len2 v123_456
    /\ sign_is false len3 /\ sign_is false len2.
Proof.
  apply (get_length_not_negative v123_456 1
           (F32.lit 4) (F32.lit 5) (F32.lit 6)).
  vm_compute. reflexivity.
Defined.

(** X18: when the length compares unequal to 0, [normalize_length] and
    [normalize] keep the sign of every component: each component they
    leave is a NaN or has the sign bit it had. *)
Theorem normalize_length_keeps_signs
    (h : gmap loc (list F32.float)) (this : loc) (p y r : F32.float)
    (sp sy sr : bool) :
  h !! this = Some [p; y; r] ->
  F32.neb (length3 p y r) (F32.lit 0) = true ->
  sign_is sp p -> sign_is sy y -> sign_is sr r ->
  exists p' y' r' : F32.float,
    normalize_length 3 this h = Returned tt (<[this := [p'; y'; r']]> h)
    /\ normalize 3 this h = Returned tt (<[this := [p'; y'; r']]> h)
    /\ sign_is sp p' /\ sign_is sy y' /\ sign_is sr r'.
Proof.
  intros Hl Hne Hp Hy Hr.
  exists (F32.div p (length3 p y r)), (F32.div y (length3 p y r)),
         (F32.div r (length3 p y r)).
  rewrite (normalize_eq h this p y r Hl),
    (normalize_length_eq h this p y r Hl).
  unfold unit3. rewrite Hne.
  split; [reflexivity|]. split; [reflexivity|].
  pose proof (length3_sign p y r) as Hs.
  split; [|split]; apply div_sign; assumption.
Qed.

Lemma normalize_length_keeps_signs_witness :
  exists p' y' r' : F32.float,
    normalize_length 3 0 {[ 0 := [F32.lit (-3); F32.lit 4; S754_zero true] ]}
      = Returned tt
          (<[0 := [p'; y'; r']]>
             {[ 0 := [F32.lit (-3); F32.lit 4; S754_zero true] ]})
    /\ normalize 3 0 {[ 0 := [F32.lit (-3); F32.lit 4; S754_zero true] ]}
      = Returned tt
          (<[0 := [p'; y'; r']]>
             {[ 0 := [F32.lit (-3); F32.lit 4; S754_zero true] ]})
    /\ sign_is true p' /\ sign_is false y' /\ sign_is true r'.
Proof.
  apply (normalize_length_keeps_signs
           {[ 0 := [F32.lit (-3); F32.lit 4; S754_zero true] ]} 0
           (F32.lit (-3)) (F32.lit 4) (S754_zero true) true false true);
    vm_compute; reflexivity.
Defined.
